(** * Bisection method: a shallow embedding of [bisection-method.py]

    The Python source is dynamically typed: [bisection_method] works on any
    numbers that support [+ - * /], [abs] and the comparisons.  The embedding
    is therefore written once, over an interface [Number] of exactly the
    operations the source uses, and instantiated at three number types:

    - at [Q], exact arithmetic (what Python computes on [fractions.Fraction]
      arguments, and on floats for as long as no operation rounds);
    - at [float], IEEE 754 binary64 with round-to-nearest-even, which is the
      Python [float];
    - at [R], the real numbers in which the specification is worded.

    The operations of an instance are total, as they are on these number
    types: float arithmetic does not raise (an overflow gives [inf], an
    invalid operation [nan]), and f is taken to be a function that does not
    raise either.  Python [int] arguments are covered as far as their
    arithmetic is exact, as for the [-2] and [2] of [main]; an [int] too
    large for a float, on which [/] or the formatting of a table row raises
    [OverflowError], is not a value of any instance. *)

From Stdlib Require Import String Reals.
From Stdlib Require Import ZArith QArith Qabs Lia Psatz List Bool.
From Stdlib Require Import Floats.
Import ListNotations.

Set Warnings "-inexact-float".

(** ** The numeric operations used by the source *)

Class Number (T : Type) := {
  of_int : Z -> T;          (* an int literal ([0], [2], [4]) meeting a [T] *)
  lit_1e_15 : T;            (* the float literal [1e-15] *)
  add : T -> T -> T;
  sub : T -> T -> T;
  mul : T -> T -> T;
  div : T -> T -> T;
  abs : T -> T;
  lt : T -> T -> bool;      (* [x < y] *)
  ge : T -> T -> bool       (* [x >= y] *)
}.

Declare Scope py_scope.
Delimit Scope py_scope with py.
Notation "x + y" := (add x y) : py_scope.
Notation "x - y" := (sub x y) : py_scope.
Notation "x * y" := (mul x y) : py_scope.
Notation "x / y" := (div x y) : py_scope.
Notation "x <? y" := (lt x y) : py_scope.
Notation "x >=? y" := (ge x y) (at level 70) : py_scope.

(** ** [bisection_method] *)

Section Bisection.

Context {T : Type} {num : Number T}.

(** One entry of [history]: the dict appended on each pass of the loop. *)
Record IterationRecord := {
  rec_iteration : Z;
  rec_a : T;
  rec_b : T;
  rec_midpoint : T;
  rec_f_mid : T;
  rec_error : T
}.

(** What the function prints.  The text of a line is not modelled, only which
    [print] call produced it; a table row is the record it formats. *)
Inductive line :=
  | Title
  | Rule
  | Header
  | Dashes
  | Row (r : IterationRecord)
  | ExactRootFound
  | ConvergenceAchieved
  | MaximumIterationsReached.

Inductive exn :=
  | ValueError (a fa b fb : T)   (* the message formats a, f(a), b, f(b) *)
  | UnboundLocalError.          (* [return midpoint] with [midpoint] never assigned *)

Inductive result :=
  | Raise (e : exn)
  | Return (root : T) (history : list IterationRecord).

Local Open Scope py_scope.

Section Loop.

Variable f : T -> T.
Variable tolerance : T.

(** [for i in range(n): ... else: ...].  The arguments are the local variables
    the body reads and assigns; [midpoint] is [None] until the body has run
    once.  The result is the final [midpoint], [history] and printed lines. *)
Fixpoint for_loop (n : nat) (a b : T) (iteration : Z) (midpoint : option T)
    (history : list IterationRecord) (out : list line)
    : option T * list IterationRecord * list line :=
  match n with
  | O => (midpoint, history, out ++ [MaximumIterationsReached])
  | S n' =>
      let midpoint := (a + b) / of_int 2 in
      let f_mid := f midpoint in
      let error := abs (b - a) in
      let r := {| rec_iteration := iteration; rec_a := a; rec_b := b;
                  rec_midpoint := midpoint; rec_f_mid := f_mid;
                  rec_error := error |} in
      let history := history ++ [r] in
      let out := out ++ [Row r] in
      if abs f_mid <? lit_1e_15 then
        (Some midpoint, history, out ++ [ExactRootFound])
      else if error <? tolerance then
        (Some midpoint, history, out ++ [ConvergenceAchieved])
      else if f a * f_mid <? of_int 0 then
        for_loop n' a midpoint (iteration + 1)%Z (Some midpoint) history out
      else
        for_loop n' midpoint b (iteration + 1)%Z (Some midpoint) history out
  end.

End Loop.

(** The function returns a value or raises, and has printed some lines. *)
Definition bisection_method (f : T -> T) (a b : T) (tolerance : T)
    (max_iterations : Z) : result * list line :=
  if f a * f b >=? of_int 0 then
    (Raise (ValueError a (f a) b (f b)), [])
  else
    let '(midpoint, history, out) :=
      for_loop f tolerance (Z.to_nat max_iterations) a b 0%Z None []
               [Title; Rule; Header; Dashes] in
    match midpoint with
    | None => (Raise UnboundLocalError, out)
    | Some root => (Return root history, out)
    end.

(** The two tests that leave the loop through [break], as seen on a record. *)
Definition exact_root (r : IterationRecord) : bool :=
  abs (rec_f_mid r) <? lit_1e_15.

Definition converged (tolerance : T) (r : IterationRecord) : bool :=
  rec_error r <? tolerance.

Definition stops (tolerance : T) (r : IterationRecord) : bool :=
  exact_root r || converged tolerance r.

End Bisection.

Arguments IterationRecord T : clear implicits.
Arguments line T : clear implicits.
Arguments exn T : clear implicits.
Arguments result T : clear implicits.

(** ** [print_summary] *)

Section Summary.

Context {T : Type}.

(** The lines of the summary, by the [print] call that makes each; the
    values a line formats are its arguments. *)
Inductive summary_line :=
  | SummaryRule
  | SummaryTitle
  | SummaryEquation
  | InitialInterval (a b : T)
  | RootFound (root : T)
  | ValueAtRoot (y : T)
  | NumberOfIterations (n : nat)
  | FinalError (error : T)
  | VerificationTitle
  | Verification (root y : T).

Inductive summary_result :=
  | SummaryPrinted
  | IndexError.            (* [history[0]] or [history[-1]] on an empty list *)

(** [print_summary(root, history, f)]: what it does, and the lines printed
    by then.  [history[0]] is evaluated by the fifth [print], [history[-1]]
    by the ninth. *)
Definition print_summary (root : T) (history : list (IterationRecord T))
    (f : T -> T) : summary_result * list summary_line :=
  let out := [SummaryRule; SummaryTitle; SummaryRule; SummaryEquation] in
  match nth_error history 0 with
  | None => (IndexError, out)
  | Some first =>
      let out := out ++ [InitialInterval (rec_a first) (rec_b first);
                         RootFound root;
                         ValueAtRoot (f root);
                         NumberOfIterations (length history)] in
      match nth_error history (length history - 1) with
      | None => (IndexError, out)
      | Some final =>
          (SummaryPrinted,
           out ++ [FinalError (rec_error final);
                   VerificationTitle;
                   Verification root (f root)])
      end
  end.

End Summary.

Arguments summary_line T : clear implicits.

(** ** Exact arithmetic *)

(** The value of a finite binary64 number as a rational. *)
Definition Q_of_float (x : float) : Q :=
  match Prim2SF x with
  | S754_finite s m e =>
      let m := if s then Z.neg m else Z.pos m in
      match e with
      | Z0 => inject_Z m
      | Zpos p => inject_Z (m * 2 ^ Zpos p)
      | Zneg p => Qmake m (2 ^ p)
      end
  | _ => 0
  end.

(** Python compares a [Fraction] with a [float] literal by the literal's exact
    value, which for [1e-15] is 5070602400912918 / 2^102. *)
Definition Q_1e_15 : Q := 5070602400912918 # 5070602400912917605986812821504.

Definition Qltb (x y : Q) : bool := negb (Qle_bool y x).

#[export] Instance Q_Number : Number Q := {|
  of_int := inject_Z;
  lit_1e_15 := Q_1e_15;
  add := Qplus;
  sub := Qminus;
  mul := Qmult;
  div := Qdiv;
  abs := Qabs;
  lt := Qltb;
  ge := fun x y => Qle_bool y x
|}.

(** ** binary64 arithmetic *)

Definition float_of_int (z : Z) : float :=
  match z with
  | Z0 => 0%float
  | Zpos _ => PrimFloat.of_uint63 (Uint63.of_Z z)
  | Zneg p => PrimFloat.opp (PrimFloat.of_uint63 (Uint63.of_Z (Zpos p)))
  end.

#[export] Instance float_Number : Number float := {|
  of_int := float_of_int;
  lit_1e_15 := 1e-15%float;
  add := PrimFloat.add;
  sub := PrimFloat.sub;
  mul := PrimFloat.mul;
  div := PrimFloat.div;
  abs := PrimFloat.abs;
  lt := PrimFloat.ltb;
  ge := fun x y => PrimFloat.leb y x
|}.

(** ** Real arithmetic

    The comparisons are decided by [Rlt_dec] and [Rle_dec]; this instance is
    for statements, it does not compute. *)

Definition Rltb (x y : R) : bool := if Rlt_dec x y then true else false.

Definition Rgeb (x y : R) : bool := if Rle_dec y x then true else false.

#[export] Instance R_Number : Number R := {|
  of_int := IZR;
  lit_1e_15 := 1e-15%R;
  add := Rplus;
  sub := Rminus;
  mul := Rmult;
  div := Rdiv;
  abs := Rabs;
  lt := Rltb;
  ge := Rgeb
|}.

(** ** The program: [f], [main] and the module's last statement *)

Module Main.

(** [x**3 + 4*x] *)
Definition f (x : Q) : Q := x ^ 3 + 4 * x.

(** [main]: the call inside [try].  The arguments [-2] and [2] are Python
    ints and the tolerance is the float literal [1e-6]. *)
Definition a : Q := inject_Z (-2).
Definition b : Q := inject_Z 2.
Definition tolerance : Q := Q_of_float 1e-6%float.
Definition max_iterations : Z := 50.

Definition main : result Q * list (line Q) :=
  bisection_method f a b tolerance max_iterations.

(** Python values that meet in the test of the last statement. *)
Inductive pyobj :=
  | PyStr (s : string)
  | PyClass (name : string).   (* a builtin class object *)

(** [==] between them: a class object is equal only to itself, and never to
    a string. *)
Definition py_eq (x y : pyobj) : bool :=
  match x, y with
  | PyStr s, PyStr t => String.eqb s t
  | PyClass m, PyClass n => String.eqb m n
  | _, _ => false
  end.

Definition NameError : pyobj := PyClass "NameError".

(** [if NameError== "__main__": main()], the module's last statement:
    [Some] of what [main] does when it is called, [None] when it is not. *)
Definition module_body : option (result Q * list (line Q)) :=
  if py_eq NameError (PyStr "__main__") then Some main else None.

End Main.

(** * Auxiliary definitions

    ** The loop, pass by pass

    [pass_record f a b it] is the record a pass appends when it starts from
    the bracket [(a, b)] with counter [it].  [run n a b it h l] says that [n]
    remaining passes from there append the records [h] and end by printing
    the line [l]: one constructor for each way through the loop body, and
    one for the [else] clause. *)

Section LoopDefs.

Context {T : Type} {num : Number T}.
Variable f : T -> T.
Variable tolerance : T.

Local Open Scope py_scope.

Definition pass_record (a b : T) (it : Z) : IterationRecord T :=
  let m := (a + b) / of_int 2 in
  {| rec_iteration := it; rec_a := a; rec_b := b;
     rec_midpoint := m; rec_f_mid := f m; rec_error := abs (b - a) |}.

Inductive run : nat -> T -> T -> Z -> list (IterationRecord T) -> line T -> Prop :=
  | run_exact n a b it :
      exact_root (pass_record a b it) = true ->
      run (S n) a b it [pass_record a b it] ExactRootFound
  | run_converged n a b it :
      exact_root (pass_record a b it) = false ->
      converged tolerance (pass_record a b it) = true ->
      run (S n) a b it [pass_record a b it] ConvergenceAchieved
  | run_move_high n a b it h l :
      stops tolerance (pass_record a b it) = false ->
      (f a * rec_f_mid (pass_record a b it) <? of_int 0) = true ->
      run n a (rec_midpoint (pass_record a b it)) (it + 1)%Z h l ->
      run (S n) a b it (pass_record a b it :: h) l
  | run_move_low n a b it h l :
      stops tolerance (pass_record a b it) = false ->
      (f a * rec_f_mid (pass_record a b it) <? of_int 0) = false ->
      run n (rec_midpoint (pass_record a b it)) b (it + 1)%Z h l ->
      run (S n) a b it (pass_record a b it :: h) l
  | run_exhausted a b it :
      run O a b it [] MaximumIterationsReached.

(** The value of the variable [midpoint] after the records [h] were made. *)
Definition final_midpoint (h : list (IterationRecord T)) (before : option T)
    : option T :=
  last (map (fun r => Some (rec_midpoint r)) h) before.

(** The sign test of the docstring, [f(a)*f(b) < 0], on a record's bracket. *)
Definition opposite_signs (r : IterationRecord T) : bool :=
  f (rec_a r) * f (rec_b r) <? of_int 0.

(** The product the narrowing step tests on the pass that made [r]. *)
Definition narrowing_product (r : IterationRecord T) : T :=
  f (rec_a r) * rec_f_mid r.

End LoopDefs.

(** The four lines printed before the loop. *)
Definition heading {T : Type} : list (line T) := [Title; Rule; Header; Dashes].

(** ** Exact number types

    A number type with a sign for every value, an equality of values and an
    order.  [ExactLaws] says that the operations of [Number] compute without
    error as far as the loop can tell: the sign of a product is the product
    of the signs, zero passes the exact-root test, and the two halves of a
    bracket have half its width. *)

Definition sign_product (s t : comparison) : comparison :=
  match s, t with
  | Eq, _ | _, Eq => Eq
  | Lt, Lt | Gt, Gt => Gt
  | Lt, Gt | Gt, Lt => Lt
  end.

Class Signed (T : Type) := {
  sgn : T -> comparison;        (* [Lt] negative, [Eq] zero, [Gt] positive *)
  num_eq : T -> T -> Prop;
  num_le : T -> T -> Prop
}.

Record ExactLaws (T : Type) {num : Number T} {sg : Signed T} : Prop := {
  lt_zero : forall x, (x <? of_int 0)%py = true <-> sgn x = Lt;
  ge_zero : forall x, (x >=? of_int 0)%py = true <-> sgn x <> Lt;
  sgn_mul : forall x y, sgn (x * y)%py = sign_product (sgn x) (sgn y);
  sgn_abs_small : forall x, sgn x = Eq -> (abs x <? lit_1e_15)%py = true;
  half_left : forall a b,
    num_eq (abs ((a + b) / of_int 2 - a))%py (abs (b - a) / of_int 2)%py;
  half_right : forall a b,
    num_eq (abs (b - (a + b) / of_int 2))%py (abs (b - a) / of_int 2)%py;
  half_le : forall x y, num_eq y (abs x / of_int 2)%py -> num_le y (abs x)
}.

Arguments ExactLaws T {num sg}.

#[export] Instance Q_Signed : Signed Q := {|
  sgn := fun x => x ?= 0;
  num_eq := Qeq;
  num_le := Qle
|}.

Definition Rsgn (x : R) : comparison :=
  if Rlt_dec x 0 then Lt else if Rlt_dec 0 x then Gt else Eq.

#[export] Instance R_Signed : Signed R := {|
  sgn := Rsgn;
  num_eq := eq;
  num_le := Rle
|}.

(** ** Runs used as examples *)

(** f(x) = x on [-1, 1], in exact arithmetic. *)
Module Identity.
Definition f (x : Q) : Q := x.
Definition a : Q := inject_Z (-1).
Definition b : Q := inject_Z 1.
End Identity.

(** f(x) = x^2 + 1 on [-2, 2], in exact arithmetic: no sign change. *)
Module NoSignChange.
Definition f (x : Q) : Q := x ^ 2 + 1.
Definition a : Q := inject_Z (-2).
Definition b : Q := inject_Z 2.
End NoSignChange.

(** f(x) = x^3 + 4x on [-1, 2] with tolerance 1e-12, in exact arithmetic. *)
Module Wide.
Definition a : Q := inject_Z (-1).
Definition b : Q := inject_Z 2.
Definition tolerance : Q := Q_of_float 1e-12%float.
End Wide.

(** f(x) = x on [-5e-324, 1.0] in binary64: the lower bound is the smallest
    negative number, and half of it rounds to zero. *)
Module Underflow.
Definition f (x : float) : float := x.
Definition a : float := (-0x1p-1074)%float.
Definition b : float := 1%float.
Definition tolerance : float := 1e-6%float.
End Underflow.

(** f(x) = x - 0.12 on [0.1, 0.2] in binary64. *)
Module Rounding.
Definition f (x : float) : float := (x - 0.12)%float.
Definition a : float := 0.1%float.
Definition b : float := 0.2%float.
Definition tolerance : float := 1e-6%float.
End Rounding.

(** f(x) = x*inf - x*inf on [1.0, 2.0] in binary64: f is NaN at every
    nonzero x. *)
Module NotANumber.
Definition f (x : float) : float := (x * infinity - x * infinity)%float.
Definition a : float := 1%float.
Definition b : float := 2%float.
Definition tolerance : float := 1e-6%float.
End NotANumber.

(** f(x) = x on [-1.0, 1e-310] with tolerance 0 in binary64: the upper bound
    is subnormal, and the lower bound rises towards zero. *)
Module Subnormal.
Definition f (x : float) : float := x.
Definition a : float := (-1)%float.
Definition b : float := 1e-310%float.
Definition tolerance : float := 0%float.
End Subnormal.

(** f(x) = x - 1.1e308 on [1e308, 1.2e308] in binary64: [a + b] is beyond
    the largest float. *)
Module Overflow.
Definition f (x : float) : float := (x - 1.1e308)%float.
Definition a : float := 1e308%float.
Definition b : float := 1.2e308%float.
Definition tolerance : float := 1e-6%float.
End Overflow.

(** * Properties *)

(** ** Facts about the loop, at every number type *)

Section LoopFacts.

Context {T : Type} {num : Number T}.
Variable f : T -> T.
Variable tolerance : T.

Local Open Scope py_scope.

Lemma final_midpoint_cons (r : IterationRecord T) h before :
  final_midpoint (r :: h) before = final_midpoint h (Some (rec_midpoint r)).
Proof.
  unfold final_midpoint. destruct h as [|r' h]; [reflexivity|].
  cbn [map]. generalize (map (fun r => Some (rec_midpoint r)) h) as k.
  generalize (Some (rec_midpoint r')) as x. intros x k. revert x.
  induction k as [|y k IH]; intros x; [reflexivity|].
  change (last (x :: y :: k) before) with (last (y :: k) before).
  change (last (x :: y :: k) (Some (rec_midpoint r)))
    with (last (y :: k) (Some (rec_midpoint r))).
  destruct k; [reflexivity | apply IH].
Qed.

Lemma final_midpoint_app (h : list (IterationRecord T)) r before :
  final_midpoint (h ++ [r]) before = Some (rec_midpoint r).
Proof.
  unfold final_midpoint. rewrite map_app. cbn [map]. apply last_last.
Qed.

(** The loop of the source follows [run]. *)
Lemma for_loop_run n : forall a b it mid hist out,
  exists h l,
    run f tolerance n a b it h l /\
    for_loop f tolerance n a b it mid hist out
    = (final_midpoint h mid, hist ++ h, out ++ map (@Row T) h ++ [l]).
Proof.
  induction n as [|n IH]; intros a b it mid hist out.
  - exists [], MaximumIterationsReached. split; [constructor|].
    cbn. now rewrite app_nil_r.
  - cbn [for_loop]. fold (pass_record f a b it).
    change (f ((a + b) / of_int 2)) with (rec_f_mid (pass_record f a b it)).
    change ((a + b) / of_int 2) with (rec_midpoint (pass_record f a b it)).
    change (abs (b - a)) with (rec_error (pass_record f a b it)).
    set (r := pass_record f a b it).
    destruct (abs (rec_f_mid r) <? lit_1e_15) eqn:He.
    { exists [r], ExactRootFound. split; [now constructor|].
      cbn. now rewrite <- app_assoc. }
    destruct (rec_error r <? tolerance) eqn:Hc.
    { exists [r], ConvergenceAchieved. split; [now constructor|].
      cbn. now rewrite <- app_assoc. }
    assert (Hs : stops tolerance r = false).
    { unfold stops, exact_root, converged. now rewrite He, Hc. }
    destruct (f a * rec_f_mid r <? of_int 0) eqn:Hn.
    + destruct (IH a (rec_midpoint r) (it + 1)%Z (Some (rec_midpoint r))
                   (hist ++ [r]) (out ++ [Row r])) as (h & l & Hrun & Heq).
      exists (r :: h), l. split; [now apply run_move_high|].
      rewrite Heq, final_midpoint_cons. cbn [map].
      now rewrite <- !app_assoc.
    + destruct (IH (rec_midpoint r) b (it + 1)%Z (Some (rec_midpoint r))
                   (hist ++ [r]) (out ++ [Row r])) as (h & l & Hrun & Heq).
      exists (r :: h), l. split; [now apply run_move_low|].
      rewrite Heq, final_midpoint_cons. cbn [map].
      now rewrite <- !app_assoc.
Qed.

(** Past the sign check, the function is the loop started on the arguments. *)
Lemma bisection_method_run a b max_iterations :
  (f a * f b >=? of_int 0) = false ->
  exists h l,
    run f tolerance (Z.to_nat max_iterations) a b 0%Z h l /\
    bisection_method f a b tolerance max_iterations
    = (match final_midpoint h None with
       | None => Raise UnboundLocalError
       | Some root => Return root h
       end, heading ++ map (@Row T) h ++ [l]).
Proof.
  intros Hpre. unfold bisection_method. rewrite Hpre.
  destruct (for_loop_run (Z.to_nat max_iterations) a b 0%Z None [] heading)
    as (h & l & Hrun & Heq).
  exists h, l. split; [exact Hrun|].
  unfold heading in Heq. rewrite Heq. cbn [app].
  destruct (final_midpoint h None); reflexivity.
Qed.

(** What a returned history says about the run that made it. *)
Lemma bisection_method_Return a b max_iterations root history out :
  bisection_method f a b tolerance max_iterations = (Return root history, out) ->
  (f a * f b >=? of_int 0) = false /\
  exists l,
    run f tolerance (Z.to_nat max_iterations) a b 0%Z history l /\
    final_midpoint history None = Some root /\
    out = heading ++ map (@Row T) history ++ [l].
Proof.
  intros H. destruct (f a * f b >=? of_int 0) eqn:Hpre.
  - unfold bisection_method in H. rewrite Hpre in H. discriminate.
  - split; [reflexivity|].
    destruct (bisection_method_run a b max_iterations Hpre)
      as (h & l & Hrun & Heq).
    rewrite Heq in H. destruct (final_midpoint h None) eqn:Hm; [|discriminate].
    injection H as -> -> <-. exists l. auto.
Qed.

Lemma run_length n a b it h l :
  run f tolerance n a b it h l -> (length h <= n)%nat.
Proof. induction 1; cbn; lia. Qed.

Lemma run_nonempty n a b it h l :
  run f tolerance (S n) a b it h l -> h <> [].
Proof. inversion 1; discriminate. Qed.

Lemma run_head n a b it r h l :
  run f tolerance n a b it (r :: h) l -> r = pass_record f a b it.
Proof. inversion 1; reflexivity. Qed.

(** Every record is the record of its own bracket. *)
Lemma run_records n a b it h l :
  run f tolerance n a b it h l ->
  Forall (fun r => r = pass_record f (rec_a r) (rec_b r) (rec_iteration r)) h.
Proof. induction 1; repeat constructor; auto. Qed.

(** A record on which a stopping test holds is the last one. *)
Lemma run_stop_is_last n a b it h l :
  run f tolerance n a b it h l ->
  forall i r, nth_error h i = Some r -> stops tolerance r = true ->
  S i = length h.
Proof.
  induction 1 as [n a b it He|n a b it He Hc|n a b it h l Hs Hn Hrun IH
                 |n a b it h l Hs Hn Hrun IH|a b it]; intros i r Hi Hr.
  - destruct i as [|[|i]]; cbn in Hi; try discriminate. reflexivity.
  - destruct i as [|[|i]]; cbn in Hi; try discriminate. reflexivity.
  - destruct i as [|i]; cbn in Hi.
    + injection Hi as <-. congruence.
    + cbn. f_equal. eauto.
  - destruct i as [|i]; cbn in Hi.
    + injection Hi as <-. congruence.
    + cbn. f_equal. eauto.
  - destruct i; discriminate.
Qed.

(** The last record decides the line printed at the end. *)
Lemma run_last n a b it h l :
  run f tolerance n a b it h l ->
  forall h' r, h = h' ++ [r] ->
  (exact_root r = true /\ l = ExactRootFound) \/
  (exact_root r = false /\ converged tolerance r = true /\
   l = ConvergenceAchieved) \/
  (stops tolerance r = false /\ l = MaximumIterationsReached /\ length h = n).
Proof.
  induction 1 as [n a b it He|n a b it He Hc|n a b it h l Hs Hn Hrun IH
                 |n a b it h l Hs Hn Hrun IH|a b it]; intros h' r Heq.
  - destruct h' as [|x [|y h']]; try discriminate.
    injection Heq as <-. auto.
  - destruct h' as [|x [|y h']]; try discriminate.
    injection Heq as <-. auto.
  - destruct h' as [|x h'].
    + injection Heq as <- ->. inversion Hrun; subst. cbn. auto.
    + injection Heq as <- ->.
      destruct (IH h' r eq_refl) as [?|[?|(?&?&?)]]; auto.
      right; right. cbn. auto.
  - destruct h' as [|x h'].
    + injection Heq as <- ->. inversion Hrun; subst. cbn. auto.
    + injection Heq as <- ->.
      destruct (IH h' r eq_refl) as [?|[?|(?&?&?)]]; auto.
      right; right. cbn. auto.
  - destruct h'; discriminate.
Qed.

(** From one record to the next: the narrowing step. *)
Lemma run_adjacent n a b it h l :
  run f tolerance n a b it h l ->
  forall i r r', nth_error h i = Some r -> nth_error h (S i) = Some r' ->
  rec_iteration r' = (rec_iteration r + 1)%Z /\
  if f (rec_a r) * rec_f_mid r <? of_int 0
  then rec_a r' = rec_a r /\ rec_b r' = rec_midpoint r
  else rec_a r' = rec_midpoint r /\ rec_b r' = rec_b r.
Proof.
  induction 1 as [n a b it He|n a b it He Hc|n a b it h l Hs Hn Hrun IH
                 |n a b it h l Hs Hn Hrun IH|a b it]; intros i r r' Hi Hi'.
  - destruct i; discriminate.
  - destruct i; discriminate.
  - destruct i as [|i].
    + cbn in Hi, Hi'. injection Hi as <-.
      destruct h as [|x h]; [discriminate|]. injection Hi' as ->.
      apply run_head in Hrun. subst r'. cbn in Hn |- *. rewrite Hn. auto.
    + cbn in Hi, Hi'. eauto.
  - destruct i as [|i].
    + cbn in Hi, Hi'. injection Hi as <-.
      destruct h as [|x h]; [discriminate|]. injection Hi' as ->.
      apply run_head in Hrun. subst r'. cbn in Hn |- *. rewrite Hn. auto.
    + cbn in Hi, Hi'. eauto.
  - destruct i; discriminate.
Qed.

End LoopFacts.

(** ** More facts about runs *)

Lemma nth_error_last_split {A : Type} (h : list A) i r :
  nth_error h i = Some r -> S i = length h -> exists h', h = h' ++ [r].
Proof.
  revert i. induction h as [|x h IH]; intros i Hi Hlen; [discriminate|].
  destruct i as [|i]; cbn in Hi, Hlen.
  - injection Hi as ->. destruct h; [|discriminate]. now exists [].
  - injection Hlen as Hlen. destruct (IH i Hi Hlen) as (h' & ->).
    now exists (x :: h').
Qed.

Lemma last_of_output {T : Type} (h : list (IterationRecord T)) (l : line T) :
  last (heading ++ map (@Row T) h ++ [l]) Title = l.
Proof. rewrite app_assoc. apply last_last. Qed.

Lemma run_exhausted_all_continue {T : Type} {num : Number T}
    (f : T -> T) tolerance n a b it h l :
  run f tolerance n a b it h l ->
  l = MaximumIterationsReached ->
  Forall (fun r => stops tolerance r = false) h /\ length h = n.
Proof.
  induction 1 as [n a b it He|n a b it He Hc|n a b it h l Hs Hn Hrun IH
                 |n a b it h l Hs Hn Hrun IH|a b it]; intros Hl;
    try discriminate.
  - destruct (IH Hl) as [? ?]. split; [now constructor | cbn; congruence].
  - destruct (IH Hl) as [? ?]. split; [now constructor | cbn; congruence].
  - split; [constructor | reflexivity].
Qed.

Lemma run_all_continue_exhausted {T : Type} {num : Number T}
    (f : T -> T) tolerance n a b it h l :
  run f tolerance n a b it h l ->
  Forall (fun r => stops tolerance r = false) h ->
  l = MaximumIterationsReached.
Proof.
  induction 1 as [n a b it He|n a b it He Hc|n a b it h l Hs Hn Hrun IH
                 |n a b it h l Hs Hn Hrun IH|a b it]; intros Hall.
  - inversion Hall as [|? ? Hs _]; subst. unfold stops in Hs.
    rewrite He in Hs. discriminate.
  - inversion Hall as [|? ? Hs _]; subst. unfold stops in Hs.
    rewrite Hc, orb_true_r in Hs. discriminate.
  - inversion Hall; subst. auto.
  - inversion Hall; subst. auto.
  - reflexivity.
Qed.

(** ** One pass of the loop *)

Section PassFacts.

Context {T : Type} {num : Number T}.
Variable f : T -> T.
Variable tolerance : T.

Local Open Scope py_scope.

(** A pass whose record passes the exact-root test ends the loop. *)
Lemma for_loop_exact n a b it mid hist out :
  exact_root (pass_record f a b it) = true ->
  for_loop f tolerance (S n) a b it mid hist out
  = (Some (rec_midpoint (pass_record f a b it)),
     hist ++ [pass_record f a b it],
     out ++ [Row (pass_record f a b it); ExactRootFound]).
Proof.
  intros He. cbn [for_loop].
  change (abs (f ((a + b) / of_int 2)) <? lit_1e_15)
    with (exact_root (pass_record f a b it)).
  rewrite He. rewrite <- app_assoc. reflexivity.
Qed.

(** A pass whose record fails that test and passes the tolerance test ends
    the loop. *)
Lemma for_loop_converged n a b it mid hist out :
  exact_root (pass_record f a b it) = false ->
  converged tolerance (pass_record f a b it) = true ->
  for_loop f tolerance (S n) a b it mid hist out
  = (Some (rec_midpoint (pass_record f a b it)),
     hist ++ [pass_record f a b it],
     out ++ [Row (pass_record f a b it); ConvergenceAchieved]).
Proof.
  intros He Hc. cbn [for_loop].
  change (abs (f ((a + b) / of_int 2)) <? lit_1e_15)
    with (exact_root (pass_record f a b it)).
  change (abs (b - a) <? tolerance)
    with (converged tolerance (pass_record f a b it)).
  rewrite He, Hc. rewrite <- app_assoc. reflexivity.
Qed.

(** A pass whose record passes neither test narrows the bracket and goes
    on. *)
Lemma for_loop_narrow n a b it mid hist out :
  stops tolerance (pass_record f a b it) = false ->
  for_loop f tolerance (S n) a b it mid hist out
  = if f a * rec_f_mid (pass_record f a b it) <? of_int 0
    then for_loop f tolerance n a (rec_midpoint (pass_record f a b it))
           (it + 1)%Z (Some (rec_midpoint (pass_record f a b it)))
           (hist ++ [pass_record f a b it])
           (out ++ [Row (pass_record f a b it)])
    else for_loop f tolerance n (rec_midpoint (pass_record f a b it)) b
           (it + 1)%Z (Some (rec_midpoint (pass_record f a b it)))
           (hist ++ [pass_record f a b it])
           (out ++ [Row (pass_record f a b it)]).
Proof.
  intros Hs. apply orb_false_iff in Hs. destruct Hs as [He Hc].
  cbn [for_loop].
  change (abs (f ((a + b) / of_int 2)) <? lit_1e_15)
    with (exact_root (pass_record f a b it)).
  change (abs (b - a) <? tolerance)
    with (converged tolerance (pass_record f a b it)).
  rewrite He, Hc. reflexivity.
Qed.

(** After a record that passed neither test, and with a pass left, comes
    another record. *)
Lemma run_next_record n a b it h l :
  run f tolerance n a b it h l ->
  forall i r, nth_error h i = Some r ->
  stops tolerance r = false ->
  (S i < n)%nat ->
  exists r', nth_error h (S i) = Some r'.
Proof.
  induction 1 as [n a b it He|n a b it He Hc|n a b it h l Hs Hn Hrun IH
                 |n a b it h l Hs Hn Hrun IH|a b it]; intros i r Hi Hr Hlt.
  - destruct i as [|[|i]]; cbn in Hi; try discriminate.
    injection Hi as <-. unfold stops in Hr. rewrite He in Hr. discriminate.
  - destruct i as [|[|i]]; cbn in Hi; try discriminate.
    injection Hi as <-. unfold stops in Hr.
    rewrite Hc, orb_true_r in Hr. discriminate.
  - destruct i as [|i]; cbn in Hi |- *.
    + destruct n as [|n]; [lia|].
      destruct h as [|x h]; [destruct (run_nonempty _ _ _ _ _ _ _ _ Hrun eq_refl)|].
      now exists x.
    + apply (IH i r Hi Hr). lia.
  - destruct i as [|i]; cbn in Hi |- *.
    + destruct n as [|n]; [lia|].
      destruct h as [|x h]; [destruct (run_nonempty _ _ _ _ _ _ _ _ Hrun eq_refl)|].
      now exists x.
    + apply (IH i r Hi Hr). lia.
  - destruct i; discriminate.
Qed.

End PassFacts.

(** ** Facts about the loop, at an exact number type *)

Lemma stops_false {T : Type} {num : Number T} (tolerance : T) r :
  stops tolerance r = false ->
  exact_root r = false /\ converged tolerance r = false.
Proof. unfold stops. apply orb_false_iff. Qed.

Section ExactFacts.

Context {T : Type} {num : Number T} {sg : Signed T}.
Hypothesis laws : ExactLaws T.
Variable f : T -> T.
Variable tolerance : T.

Local Open Scope py_scope.

Lemma negative_product_left x y : sgn (x * y) = Lt -> sgn x <> Eq.
Proof.
  rewrite (sgn_mul T laws). destruct (sgn x); cbn; congruence.
Qed.

(** If [x] and [y] differ in sign and [x], [z] do not, then [z] and [y]
    differ in sign, as long as [z] is not zero. *)
Lemma sign_transfer x y z :
  sgn (x * y) = Lt -> sgn (x * z) <> Lt -> sgn z <> Eq -> sgn (z * y) = Lt.
Proof.
  rewrite !(sgn_mul T laws).
  destruct (sgn x), (sgn y), (sgn z); cbn; congruence.
Qed.

(** A value that fails the exact-root test is not zero. *)
Lemma not_exact_root_nonzero (r : IterationRecord T) :
  exact_root r = false -> sgn (rec_f_mid r) <> Eq.
Proof.
  intros H E. apply (sgn_abs_small T laws) in E.
  unfold exact_root in H. congruence.
Qed.

(** The bracket keeps its sign change from pass to pass. *)
Lemma run_opposite_signs n a b it h l :
  run f tolerance n a b it h l ->
  (f a * f b <? of_int 0) = true ->
  Forall (fun r => opposite_signs f r = true) h.
Proof.
  induction 1 as [n a b it He|n a b it He Hc|n a b it h l Hs Hn Hrun IH
                 |n a b it h l Hs Hn Hrun IH|a b it]; intros Hab.
  - repeat constructor; exact Hab.
  - repeat constructor; exact Hab.
  - constructor; [exact Hab|]. apply IH. exact Hn.
  - constructor; [exact Hab|]. apply IH.
    apply (lt_zero T laws). apply (lt_zero T laws) in Hab.
    apply stops_false in Hs. destruct Hs as [He _].
    apply not_exact_root_nonzero in He.
    apply sign_transfer with (x := f a); [exact Hab| |exact He].
    intros E. apply (lt_zero T laws) in E. cbn in E, Hn. congruence.
  - constructor.
Qed.

Lemma history_opposite_signs a b n root history out :
  bisection_method f a b tolerance n = (Return root history, out) ->
  Forall (fun r => opposite_signs f r = true) history.
Proof.
  intros Hret. apply bisection_method_Return in Hret.
  destruct Hret as (Hpre & l & Hrun & _ & _).
  apply (run_opposite_signs _ _ _ _ _ _ Hrun).
  destruct (f a * f b <? of_int 0) eqn:E; [reflexivity|].
  assert (Hge : (f a * f b >=? of_int 0) = true).
  { apply (ge_zero T laws). intros Hlt.
    apply (lt_zero T laws) in Hlt. congruence. }
  congruence.
Qed.

(** On a pass that reaches the narrowing step the product it tests is not
    zero. *)
Lemma narrowing_product_nonzero a b n root history out r :
  bisection_method f a b tolerance n = (Return root history, out) ->
  In r history ->
  stops tolerance r = false ->
  sgn (narrowing_product f r) <> Eq.
Proof.
  intros Hret Hin Hs.
  pose proof (history_opposite_signs _ _ _ _ _ _ Hret) as Hinv.
  rewrite Forall_forall in Hinv. specialize (Hinv r Hin).
  unfold opposite_signs in Hinv. apply (lt_zero T laws) in Hinv.
  apply negative_product_left in Hinv.
  apply stops_false in Hs. destruct Hs as [He _].
  apply not_exact_root_nonzero in He.
  unfold narrowing_product. rewrite (sgn_mul T laws).
  destruct (sgn (f (rec_a r))), (sgn (rec_f_mid r)); cbn; congruence.
Qed.

(** From one record to the next the error halves. *)
Lemma history_errors_halve a b n root history out i r r' :
  bisection_method f a b tolerance n = (Return root history, out) ->
  nth_error history i = Some r ->
  nth_error history (S i) = Some r' ->
  num_eq (rec_error r') (rec_error r / of_int 2) /\
  num_le (rec_error r') (rec_error r).
Proof.
  intros Hret Hi Hi'.
  apply bisection_method_Return in Hret.
  destruct Hret as (_ & l & Hrun & _ & _).
  pose proof (run_records _ _ _ _ _ _ _ _ Hrun) as Hwf.
  rewrite Forall_forall in Hwf.
  pose proof (Hwf r (nth_error_In _ _ Hi)) as Er.
  pose proof (Hwf r' (nth_error_In _ _ Hi')) as Er'.
  destruct (run_adjacent _ _ _ _ _ _ _ _ Hrun i r r' Hi Hi') as [_ Hnext].
  assert (Em : rec_midpoint r = (rec_a r + rec_b r) / of_int 2)
    by (rewrite Er; reflexivity).
  assert (Ee : rec_error r = abs (rec_b r - rec_a r))
    by (rewrite Er; reflexivity).
  assert (Ee' : rec_error r' = abs (rec_b r' - rec_a r'))
    by (rewrite Er'; reflexivity).
  assert (Hhalf : num_eq (rec_error r') (rec_error r / of_int 2)).
  { rewrite Ee', Ee.
    destruct (f (rec_a r) * rec_f_mid r <? of_int 0);
      destruct Hnext as [-> ->]; rewrite Em.
    - apply (half_left T laws).
    - apply (half_right T laws). }
  split; [exact Hhalf|].
  rewrite Ee in Hhalf |- *. exact (half_le T laws _ _ Hhalf).
Qed.

End ExactFacts.

(** ** The rationals are exact *)

Lemma Qltb_lt x y : Qltb x y = true <-> x < y.
Proof.
  unfold Qltb. rewrite negb_true_iff. split; intros H.
  - apply Qnot_le_lt. intros Hle. apply Qle_bool_iff in Hle. congruence.
  - destruct (Qle_bool y x) eqn:E; [|reflexivity].
    apply Qle_bool_iff in E. exfalso. exact (Qlt_not_le _ _ H E).
Qed.

Lemma Q_1e_15_pos : 0 < Q_1e_15.
Proof. reflexivity. Qed.

(** The rational constant is the value of the binary64 literal. *)
Lemma Q_1e_15_is_the_float_literal : Q_of_float 1e-15%float = Q_1e_15.
Proof. vm_compute. reflexivity. Qed.

Lemma Qhalf x : x / 2 == x * (1 # 2).
Proof. unfold Qdiv. reflexivity. Qed.

Lemma Qabs_half_left a b : Qabs ((a + b) / 2 - a) == Qabs (b - a) / 2.
Proof.
  rewrite Qhalf.
  assert (E : (a + b) / 2 - a == (b - a) * (1 # 2)) by (rewrite Qhalf; ring).
  rewrite E, Qabs_Qmult. reflexivity.
Qed.

Lemma Qabs_half_right a b : Qabs (b - (a + b) / 2) == Qabs (b - a) / 2.
Proof.
  rewrite Qhalf.
  assert (E : b - (a + b) / 2 == (b - a) * (1 # 2)) by (rewrite Qhalf; ring).
  rewrite E, Qabs_Qmult. reflexivity.
Qed.

Lemma Qsgn_mul (x y : Q) : (x * y ?= 0) = sign_product (x ?= 0) (y ?= 0).
Proof.
  destruct (Qcompare_spec x 0) as [Hx|Hx|Hx];
    destruct (Qcompare_spec y 0) as [Hy|Hy|Hy]; cbn [sign_product];
    first [ apply (proj1 (Qeq_alt _ _)); first [rewrite Hx | rewrite Hy]; ring
          | apply (proj1 (Qlt_alt _ _)); nra
          | apply (proj1 (Qgt_alt _ _)); nra ].
Qed.

Lemma Q_exact : ExactLaws Q.
Proof.
  constructor; cbn.
  - intros x. rewrite Qltb_lt. apply Qlt_alt.
  - intros x. rewrite Qle_bool_iff. apply Qge_alt.
  - apply Qsgn_mul.
  - intros x Hx. apply Qeq_alt in Hx. apply Qltb_lt.
    rewrite Hx. exact Q_1e_15_pos.
  - apply Qabs_half_left.
  - apply Qabs_half_right.
  - intros x y ->. rewrite Qhalf. pose proof (Qabs_nonneg x). lra.
Qed.

(** ** The reals are exact *)

Local Open Scope R_scope.

Lemma Rltb_lt x y : Rltb x y = true <-> x < y.
Proof. unfold Rltb. destruct (Rlt_dec x y); split; intros; auto; discriminate. Qed.

Lemma Rgeb_le x y : Rgeb x y = true <-> y <= x.
Proof. unfold Rgeb. destruct (Rle_dec y x); split; intros; auto; discriminate. Qed.

Lemma Rsgn_Lt x : Rsgn x = Lt <-> x < 0.
Proof.
  unfold Rsgn. destruct (Rlt_dec x 0); [tauto|].
  destruct (Rlt_dec 0 x); split; intros; try discriminate; lra.
Qed.

Lemma Rsgn_Gt x : Rsgn x = Gt <-> 0 < x.
Proof.
  unfold Rsgn. destruct (Rlt_dec x 0); [split; intros; [discriminate | lra]|].
  destruct (Rlt_dec 0 x); split; intros; try discriminate; auto; lra.
Qed.

Lemma Rsgn_Eq x : Rsgn x = Eq <-> x = 0.
Proof.
  unfold Rsgn. destruct (Rlt_dec x 0); [split; intros; [discriminate | lra]|].
  destruct (Rlt_dec 0 x); split; intros; try discriminate; auto; lra.
Qed.

Lemma Rsgn_mul x y : Rsgn (x * y) = sign_product (Rsgn x) (Rsgn y).
Proof.
  destruct (Rsgn x) eqn:Ex; destruct (Rsgn y) eqn:Ey; cbn [sign_product];
    first [ apply Rsgn_Eq in Ex | apply Rsgn_Lt in Ex | apply Rsgn_Gt in Ex ];
    first [ apply Rsgn_Eq in Ey | apply Rsgn_Lt in Ey | apply Rsgn_Gt in Ey ];
    first [ apply Rsgn_Eq; nra | apply Rsgn_Lt; nra | apply Rsgn_Gt; nra ].
Qed.

Lemma Rabs_half x : Rabs (x * / 2) = Rabs x / 2.
Proof.
  rewrite Rabs_mult. rewrite (Rabs_pos_eq (/ 2)); [reflexivity | lra].
Qed.

Lemma R_exact : ExactLaws R.
Proof.
  constructor; cbn.
  - intros x. rewrite Rltb_lt. symmetry. apply Rsgn_Lt.
  - intros x. rewrite Rgeb_le. rewrite Rsgn_Lt. lra.
  - apply Rsgn_mul.
  - intros x Hx. apply Rsgn_Eq in Hx. subst x. apply Rltb_lt.
    rewrite Rabs_R0. lra.
  - intros a b. rewrite <- Rabs_half. f_equal. lra.
  - intros a b. rewrite <- Rabs_half. f_equal. lra.
  - intros x y ->. pose proof (Rabs_pos x). lra.
Qed.

Local Close Scope R_scope.

(** ** The claims *)

(** C1. For f(x) = x^3 + 4x on the bracket [-2, 2] with tolerance 1e-6 and
    at most 50 iterations, [bisection_method] returns a root within 1e-6 of
    0 and a history of at most 50 records.  The first midpoint is 0, so the
    exact-root test ends the loop on iteration 0 and the history has exactly
    one record. *)
Theorem main_scenario_finds_zero :
  exists root r,
    Main.main = (Return root [r], heading ++ [Row r; ExactRootFound]) /\
    Qabs (root - 0) < 1 # 1000000 /\
    (length [r] <= 50)%nat /\
    rec_iteration r = 0%Z /\
    rec_midpoint r == 0 /\
    exact_root r = true.
Proof.
  eexists. eexists. split.
  - vm_compute. reflexivity.
  - split; [reflexivity|]. split; [cbn; lia|].
    repeat split; reflexivity.
Qed.

(** C2. The sign check is the first thing the function does.  When
    [f(a) * f(b) >= 0] holds it raises [ValueError], whose message carries
    [a], [f(a)], [b] and [f(b)], before anything is printed or any record
    made; when it does not hold, [ValueError] is never raised.  In exact
    arithmetic, rational or real, the test is the inequality
    [0 <= f a * f b]. *)
Theorem sign_check_raises_first :
  (forall (T : Type) (num : Number T) (f : T -> T) a b tolerance n,
     if (f a * f b >=? of_int 0)%py
     then bisection_method f a b tolerance n
          = (Raise (ValueError a (f a) b (f b)), [])
     else forall e, fst (bisection_method f a b tolerance n) = Raise e ->
                    e = UnboundLocalError) /\
  (forall (f : Q -> Q) a b tolerance n,
     0 <= f a * f b <->
     bisection_method f a b tolerance n
     = (Raise (ValueError a (f a) b (f b)), [])) /\
  (forall (f : R -> R) a b tolerance n,
     (0 <= f a * f b)%R <->
     bisection_method f a b tolerance n
     = (Raise (ValueError a (f a) b (f b)), [])).
Proof.
  assert (G : forall (T : Type) (num : Number T) (f : T -> T) a b tolerance n,
     if (f a * f b >=? of_int 0)%py
     then bisection_method f a b tolerance n
          = (Raise (ValueError a (f a) b (f b)), [])
     else forall e, fst (bisection_method f a b tolerance n) = Raise e ->
                    e = UnboundLocalError).
  { intros T num f a b tolerance n.
    destruct (f a * f b >=? of_int 0)%py eqn:Hpre.
    - unfold bisection_method. now rewrite Hpre.
    - intros e He.
      destruct (bisection_method_run f tolerance a b n Hpre)
        as (h & l & _ & Heq).
      rewrite Heq in He. cbn in He.
      destruct (final_midpoint h None); congruence. }
  split; [exact G|]. split.
  - intros f a b tolerance n. specialize (G Q Q_Number f a b tolerance n).
    change (f a * f b >=? of_int 0)%py with (Qle_bool 0 (f a * f b)) in G.
    split.
    + intros Hle. apply Qle_bool_iff in Hle. now rewrite Hle in G.
    + intros Heq. destruct (Qle_bool 0 (f a * f b)) eqn:E.
      * now apply Qle_bool_iff in E.
      * rewrite Heq in G. specialize (G _ eq_refl). discriminate.
  - intros f a b tolerance n. specialize (G R R_Number f a b tolerance n).
    change (f a * f b >=? of_int 0)%py with (Rgeb (f a * f b) 0) in G.
    split.
    + intros Hle. apply Rgeb_le in Hle. now rewrite Hle in G.
    + intros Heq. destruct (Rgeb (f a * f b) 0) eqn:E.
      * now apply Rgeb_le in E.
      * rewrite Heq in G. specialize (G _ eq_refl). discriminate.
Qed.

(** The precondition failure among the specification's tests: f(x) = x^2 + 1 on
    [-2, 2] raises, with nothing printed and no record made. *)
Lemma sign_check_raises_first_witness :
  0 <= NoSignChange.f NoSignChange.a * NoSignChange.f NoSignChange.b /\
  bisection_method NoSignChange.f NoSignChange.a NoSignChange.b
                   Main.tolerance 50
  = (Raise (ValueError (-2) 5 2 5), []).
Proof.
  assert (H : 0 <= NoSignChange.f NoSignChange.a * NoSignChange.f NoSignChange.b)
    by (vm_compute; discriminate).
  split; [exact H|].
  exact (proj1 (proj1 (proj2 sign_check_raises_first) NoSignChange.f
                  NoSignChange.a NoSignChange.b Main.tolerance 50%Z) H).
Defined.

(** C3. On every pass, after the record is appended, the two stopping tests
    run in this order.  A pass whose record has [|f_mid| < 1e-15] ends the
    loop at once, whatever its error and the tolerance: the record is the
    last of the history, its midpoint is the value returned and the
    exact-root line is printed.  Failing that, a pass whose record has
    [error < tolerance] ends the loop in the same way with the convergence
    line, though [f_mid] may be nonzero.  This holds of a pass from any state
    of the loop, hence of the first pass of a call, and it is what a returned
    history shows: a record that passes a test is the last one, and a record
    that is not the last passed neither.  In particular f(x) = x on [-1, 1]
    stops on iteration 0 with a history of length 1, for every tolerance. *)
Theorem stopping_tests_in_order :
  (forall (T : Type) (num : Number T) (f : T -> T) a b tolerance n
          root history out i r,
     bisection_method f a b tolerance n = (Return root history, out) ->
     nth_error history i = Some r ->
     rec_f_mid r = f (rec_midpoint r) /\
     (exact_root r = true ->
      S i = length history /\ root = rec_midpoint r /\
      last out Title = ExactRootFound) /\
     (exact_root r = false -> converged tolerance r = true ->
      S i = length history /\ root = rec_midpoint r /\
      last out Title = ConvergenceAchieved) /\
     ((S i < length history)%nat -> stops tolerance r = false)) /\
  (forall tolerance n, (1 <= n)%Z ->
     exists root r,
       bisection_method Identity.f Identity.a Identity.b tolerance n
       = (Return root [r], heading ++ [Row r; ExactRootFound]) /\
       rec_iteration r = 0%Z /\ rec_midpoint r == 0 /\ root == 0) /\
  (forall (T : Type) (num : Number T) (f : T -> T) tolerance
          n a b it mid hist out,
     (exact_root (pass_record f a b it) = true ->
      for_loop f tolerance (S n) a b it mid hist out
      = (Some (rec_midpoint (pass_record f a b it)),
         hist ++ [pass_record f a b it],
         out ++ [Row (pass_record f a b it); ExactRootFound])) /\
     (exact_root (pass_record f a b it) = false ->
      converged tolerance (pass_record f a b it) = true ->
      for_loop f tolerance (S n) a b it mid hist out
      = (Some (rec_midpoint (pass_record f a b it)),
         hist ++ [pass_record f a b it],
         out ++ [Row (pass_record f a b it); ConvergenceAchieved]))) /\
  (forall (T : Type) (num : Number T) (f : T -> T) a b tolerance n,
     (f a * f b >=? of_int 0)%py = false ->
     (1 <= n)%Z ->
     (exact_root (pass_record f a b 0) = true ->
      bisection_method f a b tolerance n
      = (Return (rec_midpoint (pass_record f a b 0))
           [pass_record f a b 0],
         heading ++ [Row (pass_record f a b 0); ExactRootFound])) /\
     (exact_root (pass_record f a b 0) = false ->
      converged tolerance (pass_record f a b 0) = true ->
      bisection_method f a b tolerance n
      = (Return (rec_midpoint (pass_record f a b 0))
           [pass_record f a b 0],
         heading ++ [Row (pass_record f a b 0); ConvergenceAchieved]))).
Proof.
  split; [|split; [|split]].
  - intros T num f a b tolerance n root history out i r Hret Hi.
    apply bisection_method_Return in Hret.
    destruct Hret as (_ & l & Hrun & Hroot & ->).
    rewrite last_of_output.
    assert (Hlast : stops tolerance r = true ->
              S i = length history /\ root = rec_midpoint r /\
              ((exact_root r = true /\ l = ExactRootFound) \/
               (exact_root r = false /\ converged tolerance r = true /\
                l = ConvergenceAchieved))).
    { intros Hs.
      pose proof (run_stop_is_last _ _ _ _ _ _ _ _ Hrun i r Hi Hs) as Hlen.
      split; [exact Hlen|].
      destruct (nth_error_last_split _ _ _ Hi Hlen) as (h' & ->).
      rewrite final_midpoint_app in Hroot. injection Hroot as <-.
      split; [reflexivity|].
      destruct (run_last _ _ _ _ _ _ _ _ Hrun h' r eq_refl)
        as [?|[?|(Hns & _)]]; auto. congruence. }
    split; [|split; [|split]].
    + pose proof (run_records _ _ _ _ _ _ _ _ Hrun) as Hwf.
      rewrite Forall_forall in Hwf.
      rewrite (Hwf r (nth_error_In _ _ Hi)). reflexivity.
    + intros He. destruct Hlast as (? & ? & [(_ & ?)|(? & _)]).
      * unfold stops. now rewrite He.
      * auto.
      * congruence.
    + intros He Hc. destruct Hlast as (? & ? & [(? & _)|(_ & _ & ?)]).
      * unfold stops. now rewrite Hc, orb_true_r.
      * congruence.
      * auto.
    + intros Hlt. destruct (stops tolerance r) eqn:Hs; [|reflexivity].
      destruct (Hlast eq_refl) as (Hlen & _). lia.
  - intros tolerance n Hn. unfold bisection_method.
    destruct (Z.to_nat n) as [|k] eqn:E; [lia|].
    eexists. eexists. split; [reflexivity|].
    repeat split; reflexivity.
  - intros T num f tolerance n a b it mid hist out. split.
    + apply for_loop_exact.
    + apply for_loop_converged.
  - intros T num f a b tolerance n Hpre Hn. unfold bisection_method.
    rewrite Hpre. destruct (Z.to_nat n) as [|k] eqn:E; [lia|]. split.
    + intros He. rewrite (for_loop_exact f tolerance _ _ _ _ _ _ _ He).
      reflexivity.
    + intros He Hc.
      rewrite (for_loop_converged f tolerance _ _ _ _ _ _ _ He Hc).
      reflexivity.
Qed.

(** Two calls that stop on their first pass: f(x) = x on [-1, 1] at an exact
    root, and f(x) = x^3 + 4x on [-1, 2] with tolerance 100 on the tolerance
    test, its [f_mid] being 17/8. *)
Lemma stopping_tests_in_order_witness :
  (bisection_method Identity.f Identity.a Identity.b Main.tolerance 50
   = (Return (0 # 2) [pass_record Identity.f Identity.a Identity.b 0],
      heading ++ [Row (pass_record Identity.f Identity.a Identity.b 0);
                  ExactRootFound]) /\
   exact_root (pass_record Identity.f Identity.a Identity.b 0) = true /\
   1%nat = length [pass_record Identity.f Identity.a Identity.b 0] /\
   last (heading ++ [Row (pass_record Identity.f Identity.a Identity.b 0);
                     ExactRootFound]) Title = ExactRootFound) /\
  ((Main.f Wide.a * Main.f Wide.b >=? of_int 0)%py = false /\
   (1 <= 50)%Z /\
   exact_root (pass_record Main.f Wide.a Wide.b 0) = false /\
   converged 100 (pass_record Main.f Wide.a Wide.b 0) = true /\
   rec_f_mid (pass_record Main.f Wide.a Wide.b 0) == 17 # 8 /\
   bisection_method Main.f Wide.a Wide.b 100 50
   = (Return (rec_midpoint (pass_record Main.f Wide.a Wide.b 0))
        [pass_record Main.f Wide.a Wide.b 0],
      heading ++ [Row (pass_record Main.f Wide.a Wide.b 0);
                  ConvergenceAchieved])).
Proof.
  split.
  - split; [reflexivity|]. split; [reflexivity|].
    destruct (proj1 stopping_tests_in_order Q Q_Number
                Identity.f Identity.a Identity.b Main.tolerance 50%Z
                (0 # 2) [pass_record Identity.f Identity.a Identity.b 0]
                (heading ++ [Row (pass_record Identity.f Identity.a Identity.b 0);
                             ExactRootFound])
                0%nat (pass_record Identity.f Identity.a Identity.b 0)
                eq_refl eq_refl) as (_ & H & _).
    destruct (H eq_refl) as (Hlen & _ & Hlast).
    split; [exact Hlen | exact Hlast].
  - split; [reflexivity|]. split; [lia|]. split; [reflexivity|].
    split; [reflexivity|]. split; [reflexivity|].
    refine (proj2 (proj2 (proj2 (proj2 stopping_tests_in_order)) Q Q_Number
                     Main.f Wide.a Wide.b 100 50%Z _ _) _ _);
      [reflexivity | lia | reflexivity | reflexivity].
Defined.

(** A run that ends on the tolerance test with a nonzero [f_mid]:
    f(x) = x^3 + 4x on [-1, 2] with tolerance 1 stops on iteration 2, at
    the midpoint 1/8, where f is 257/512. *)
Example convergence_with_nonzero_f_mid :
  exists root r0 r1 r2,
    bisection_method Main.f Wide.a Wide.b 1 50
    = (Return root [r0; r1; r2],
       heading ++ [Row r0; Row r1; Row r2; ConvergenceAchieved]) /\
    root == 1 # 8 /\
    rec_error r2 == 3 # 4 /\
    rec_f_mid r2 == 257 # 512.
Proof.
  eexists. eexists. eexists. eexists.
  split; [vm_compute; reflexivity|]. repeat split; reflexivity.
Qed.

(** A zero product is not negative, in exact arithmetic and in binary64
    (where it may be [0] or [-0]). *)
Lemma zero_product_is_not_negative :
  (forall x : Q, x == 0 -> (x <? of_int 0)%py = false) /\
  (0 <? of_int 0)%py = false /\
  ((-0)%float <? of_int 0)%py = false.
Proof.
  split; [|split; reflexivity].
  intros x Hx. change (Qltb x 0 = false).
  destruct (Qltb x 0) eqn:E; [|reflexivity].
  apply Qltb_lt in E. rewrite Hx in E. discriminate.
Qed.

(** C4. On every pass that reaches the narrowing step, the bracket is
    updated by the rule: when [f(a) * f_mid] is strictly negative, [b]
    becomes the midpoint and [a] stays; otherwise, and so also when the
    product is zero, [a] becomes the midpoint and [b] stays.  The loop then
    goes on from the new bracket with one pass less.  In a returned history
    this shows as follows: after a record that passed neither stopping test,
    and unless it was made by the last pass allowed, there is a next record,
    and its bracket is the one the rule gives.  A zero product, in exact
    arithmetic or as [0] or [-0] in binary64, moves [a] up. *)
Theorem narrowing_rule :
  (forall (T : Type) (num : Number T) (f : T -> T) tolerance
          n a b it mid hist out,
     stops tolerance (pass_record f a b it) = false ->
     for_loop f tolerance (S n) a b it mid hist out
     = if (f a * rec_f_mid (pass_record f a b it) <? of_int 0)%py
       then for_loop f tolerance n a (rec_midpoint (pass_record f a b it))
              (it + 1)%Z (Some (rec_midpoint (pass_record f a b it)))
              (hist ++ [pass_record f a b it])
              (out ++ [Row (pass_record f a b it)])
       else for_loop f tolerance n (rec_midpoint (pass_record f a b it)) b
              (it + 1)%Z (Some (rec_midpoint (pass_record f a b it)))
              (hist ++ [pass_record f a b it])
              (out ++ [Row (pass_record f a b it)])) /\
  (forall (T : Type) (num : Number T) (f : T -> T) a b tolerance n
          root history out i r,
     bisection_method f a b tolerance n = (Return root history, out) ->
     nth_error history i = Some r ->
     stops tolerance r = false ->
     (S i < Z.to_nat n)%nat ->
     exists r',
       nth_error history (S i) = Some r' /\
       narrowing_product f r = (f (rec_a r) * f (rec_midpoint r))%py /\
       if (narrowing_product f r <? of_int 0)%py
       then rec_a r' = rec_a r /\ rec_b r' = rec_midpoint r
       else rec_a r' = rec_midpoint r /\ rec_b r' = rec_b r) /\
  (forall (T : Type) (num : Number T) (f : T -> T) a b tolerance n
          root history out i r r',
     bisection_method f a b tolerance n = (Return root history, out) ->
     nth_error history i = Some r ->
     nth_error history (S i) = Some r' ->
     narrowing_product f r = (f (rec_a r) * f (rec_midpoint r))%py /\
     if (narrowing_product f r <? of_int 0)%py
     then rec_a r' = rec_a r /\ rec_b r' = rec_midpoint r
     else rec_a r' = rec_midpoint r /\ rec_b r' = rec_b r) /\
  (forall (f : Q -> Q) tolerance n a b it mid hist out,
     stops tolerance (pass_record f a b it) = false ->
     f a * rec_f_mid (pass_record f a b it) == 0 ->
     for_loop f tolerance (S n) a b it mid hist out
     = for_loop f tolerance n (rec_midpoint (pass_record f a b it)) b
         (it + 1)%Z (Some (rec_midpoint (pass_record f a b it)))
         (hist ++ [pass_record f a b it])
         (out ++ [Row (pass_record f a b it)])) /\
  (forall (f : float -> float) tolerance n a b it mid hist out,
     stops tolerance (pass_record f a b it) = false ->
     (f a * rec_f_mid (pass_record f a b it))%float = 0%float \/
     (f a * rec_f_mid (pass_record f a b it))%float = (-0)%float ->
     for_loop f tolerance (S n) a b it mid hist out
     = for_loop f tolerance n (rec_midpoint (pass_record f a b it)) b
         (it + 1)%Z (Some (rec_midpoint (pass_record f a b it)))
         (hist ++ [pass_record f a b it])
         (out ++ [Row (pass_record f a b it)])).
Proof.
  assert (Hold : forall (T : Type) (num : Number T) (f : T -> T) a b tolerance
                        n root history out i r r',
     bisection_method f a b tolerance n = (Return root history, out) ->
     nth_error history i = Some r ->
     nth_error history (S i) = Some r' ->
     narrowing_product f r = (f (rec_a r) * f (rec_midpoint r))%py /\
     if (narrowing_product f r <? of_int 0)%py
     then rec_a r' = rec_a r /\ rec_b r' = rec_midpoint r
     else rec_a r' = rec_midpoint r /\ rec_b r' = rec_b r).
  { intros T num f a b tolerance n root history out i r r' Hret Hi Hi'.
    apply bisection_method_Return in Hret.
    destruct Hret as (_ & l & Hrun & _ & _).
    split.
    - pose proof (run_records _ _ _ _ _ _ _ _ Hrun) as Hwf.
      rewrite Forall_forall in Hwf. unfold narrowing_product.
      f_equal. rewrite (Hwf r (nth_error_In _ _ Hi)). reflexivity.
    - exact (proj2 (run_adjacent _ _ _ _ _ _ _ _ Hrun i r r' Hi Hi')). }
  split; [|split; [|split; [exact Hold|split]]].
  - intros T num f tolerance n a b it mid hist out.
    apply for_loop_narrow.
  - intros T num f a b tolerance n root history out i r Hret Hi Hs Hlt.
    pose proof Hret as Hret'. apply bisection_method_Return in Hret'.
    destruct Hret' as (_ & l & Hrun & _ & _).
    destruct (run_next_record _ _ _ _ _ _ _ _ Hrun i r Hi Hs Hlt)
      as (r' & Hi').
    exists r'. split; [exact Hi'|].
    exact (Hold T num f a b tolerance n root history out i r r' Hret Hi Hi').
  - intros f tolerance n a b it mid hist out Hs Hz.
    rewrite (for_loop_narrow f tolerance n a b it mid hist out Hs).
    replace (f a * rec_f_mid (pass_record f a b it) <? of_int 0)%py
      with false
      by (symmetry; exact (proj1 zero_product_is_not_negative _ Hz)).
    reflexivity.
  - intros f tolerance n a b it mid hist out Hs Hz.
    rewrite (for_loop_narrow f tolerance n a b it mid hist out Hs).
    assert (E : (f a * rec_f_mid (pass_record f a b it) <? of_int 0)%py
                = false).
    { change (PrimFloat.ltb (f a * rec_f_mid (pass_record f a b it)) 0
              = false).
      destruct Hz as [-> | ->]; reflexivity. }
    rewrite E. reflexivity.
Qed.

(** In this binary64 run the product on pass 0 is [-0]: the lower bound
    moves up to the midpoint. *)
Example zero_product_moves_low_up :
  bisection_method Underflow.f Underflow.a Underflow.b Underflow.tolerance 2
  = (Return 0.75%float
       [pass_record Underflow.f Underflow.a Underflow.b 0;
        pass_record Underflow.f 0.5%float 1%float 1],
     heading ++
     [Row (pass_record Underflow.f Underflow.a Underflow.b 0);
      Row (pass_record Underflow.f 0.5%float 1%float 1);
      MaximumIterationsReached]) /\
  narrowing_product Underflow.f
    (pass_record Underflow.f Underflow.a Underflow.b 0) = (-0)%float /\
  rec_a (pass_record Underflow.f 0.5%float 1%float 1)
  = rec_midpoint (pass_record Underflow.f Underflow.a Underflow.b 0) /\
  rec_b (pass_record Underflow.f 0.5%float 1%float 1)
  = rec_b (pass_record Underflow.f Underflow.a Underflow.b 0).
Proof. repeat split; reflexivity. Qed.

(** f(x) = x^3 + 4x on [-1, 2] with three passes.  On pass 0 the product is
    negative and the upper bound comes down to the midpoint 1/2; on pass 1
    it is positive and the lower bound goes up to the midpoint -1/4. *)
Lemma narrowing_rule_witness :
  exists root r0 r1 r2 out,
    bisection_method Main.f Wide.a Wide.b Main.tolerance 3
    = (Return root [r0; r1; r2], out) /\
    (stops Main.tolerance r0 = false /\ (1 < Z.to_nat 3)%nat /\
     (narrowing_product Main.f r0 <? of_int 0)%py = true /\
     rec_a r1 = rec_a r0 /\ rec_b r1 = rec_midpoint r0) /\
    (stops Main.tolerance r1 = false /\ (2 < Z.to_nat 3)%nat /\
     (narrowing_product Main.f r1 <? of_int 0)%py = false /\
     rec_a r2 = rec_midpoint r1 /\ rec_b r2 = rec_b r1).
Proof.
  eexists. eexists. eexists. eexists. eexists.
  split; [vm_compute; reflexivity|].
  split.
  - split; [reflexivity|]. split; [vm_compute; lia|]. split; [reflexivity|].
    match goal with |- rec_a ?r1 = rec_a ?r0 /\ _ =>
      destruct (proj1 (proj2 narrowing_rule) Q Q_Number
                  Main.f Wide.a Wide.b Main.tolerance 3%Z
                  _ _ _ 0%nat r0
                  ltac:(vm_compute; reflexivity) eq_refl eq_refl
                  ltac:(vm_compute; lia)) as (r' & Hr' & _ & H)
    end.
    injection Hr' as <-. exact H.
  - split; [reflexivity|]. split; [vm_compute; lia|]. split; [reflexivity|].
    match goal with |- rec_a ?r2 = rec_midpoint ?r1 /\ _ =>
      destruct (proj1 (proj2 narrowing_rule) Q Q_Number
                  Main.f Wide.a Wide.b Main.tolerance 3%Z
                  _ _ _ 1%nat r1
                  ltac:(vm_compute; reflexivity) eq_refl eq_refl
                  ltac:(vm_compute; lia)) as (r' & Hr' & _ & H)
    end.
    injection Hr' as <-. exact H.
Defined.

(** The tie-break in binary64.  For f(x) = x on [-5e-324, 1.0] the sign
    check passes.  On pass 0 the product [f(a) * f_mid] is [-5e-324 * 0.5],
    which rounds to [-0] and is not negative, so [a] moves to 0.5: the record
    of pass 1 has the bracket [0.5, 1.0], on which f is positive at both
    ends. *)
Example tie_break_loses_the_sign_change :
  (Underflow.f Underflow.a * Underflow.f Underflow.b >=? of_int 0)%py = false /\
  bisection_method Underflow.f Underflow.a Underflow.b Underflow.tolerance 2
  = (Return 0.75%float
       [pass_record Underflow.f Underflow.a Underflow.b 0;
        pass_record Underflow.f 0.5%float 1%float 1],
     heading ++
     [Row (pass_record Underflow.f Underflow.a Underflow.b 0);
      Row (pass_record Underflow.f 0.5%float 1%float 1);
      MaximumIterationsReached]) /\
  opposite_signs Underflow.f (pass_record Underflow.f 0.5%float 1%float 1)
  = false /\
  (Underflow.f 0.5 * Underflow.f 1)%float = 0.5%float.
Proof. repeat split; reflexivity. Qed.

(** C5, in binary64, with no tie-break.  For f(x) = x on [-1.0, 1e-310] with
    tolerance 0 and 50 iterations the sign check passes and the run makes 50
    records.  No pass has a zero product [f(a) * f_mid], and every bracket
    has a negative lower and a positive upper bound.  Yet the record of
    pass 46 has the bracket [-2^-46, 1e-310], on which the product
    [f(a) * f(b)] is about -1.4e-324: it rounds to [-0], and the test
    [f(a) * f(b) < 0] of the invariant is false. *)
Lemma bracket_invariant_fails_in_binary64 :
  exists root history out,
    (Subnormal.f Subnormal.a * Subnormal.f Subnormal.b >=? of_int 0)%py
    = false /\
    bisection_method Subnormal.f Subnormal.a Subnormal.b
                     Subnormal.tolerance 50
    = (Return root history, out) /\
    length history = 50%nat /\
    forallb (fun r => negb (PrimFloat.eqb (narrowing_product Subnormal.f r) 0))
            history = true /\
    forallb (fun r => PrimFloat.ltb (rec_a r) 0 && PrimFloat.ltb 0 (rec_b r))
            history = true /\
    nth_error history 46
    = Some (pass_record Subnormal.f (-0x1p-46)%float Subnormal.b 46) /\
    (Subnormal.f (-0x1p-46) * Subnormal.f Subnormal.b)%float = (-0)%float /\
    opposite_signs Subnormal.f
      (pass_record Subnormal.f (-0x1p-46)%float Subnormal.b 46) = false.
Proof.
  eexists. eexists. eexists.
  split; [reflexivity|]. split; [vm_compute; reflexivity|].
  repeat split; vm_compute; reflexivity.
Qed.

(** C5, amended.  In exact arithmetic, rational or real, every record of a
    returned history has a bracket on which f changes sign:
    [f(a) * f(b) < 0] held when the pass that made the record began. *)
Theorem bracket_invariant_exact :
  (forall (f : Q -> Q) a b tolerance n root history out,
     bisection_method f a b tolerance n = (Return root history, out) ->
     Forall (fun r => opposite_signs f r = true /\
                      f (rec_a r) * f (rec_b r) < 0) history) /\
  (forall (f : R -> R) a b tolerance n root history out,
     bisection_method f a b tolerance n = (Return root history, out) ->
     Forall (fun r => opposite_signs f r = true /\
                      (f (rec_a r) * f (rec_b r) < 0)%R) history).
Proof.
  split; intros f a b tolerance n root history out Hret.
  - eapply Forall_impl;
      [|exact (history_opposite_signs Q_exact _ _ _ _ _ _ _ _ Hret)].
    intros r Hr. split; [exact Hr|]. apply Qltb_lt. exact Hr.
  - eapply Forall_impl;
      [|exact (history_opposite_signs R_exact _ _ _ _ _ _ _ _ Hret)].
    intros r Hr. split; [exact Hr|]. apply Rltb_lt. exact Hr.
Qed.

Lemma bracket_invariant_exact_witness :
  exists root history out,
    bisection_method Main.f Wide.a Wide.b Main.tolerance 3
    = (Return root history, out) /\
    length history = 3%nat /\
    Forall (fun r => opposite_signs Main.f r = true /\
                     Main.f (rec_a r) * Main.f (rec_b r) < 0) history.
Proof.
  eexists. eexists. eexists. split; [vm_compute; reflexivity|].
  split; [reflexivity|].
  refine (proj1 bracket_invariant_exact Main.f Wide.a Wide.b Main.tolerance
            3%Z _ _ _ _).
  vm_compute. reflexivity.
Defined.

(** C6, in binary64.  For f(x) = x - 0.12 on [0.1, 0.2] the first two errors
    are 0.1 and 0.05000000000000002, and half of 0.1 is 0.05: not exactly
    half.  For f(x) = x - 1.1e308 on [1e308, 1.2e308] the sum [a + b]
    overflows, the midpoint is [inf] and becomes the upper bound: the first
    two errors are about 2e307 and [inf], so the error increases. *)
Lemma error_does_not_halve_in_binary64 :
  (bisection_method Rounding.f Rounding.a Rounding.b Rounding.tolerance 2
   = (Return 0.125%float
        [pass_record Rounding.f 0.1%float 0.2%float 0;
         pass_record Rounding.f 0.1%float 0.15000000000000002%float 1],
      heading ++
      [Row (pass_record Rounding.f 0.1%float 0.2%float 0);
       Row (pass_record Rounding.f 0.1%float 0.15000000000000002%float 1);
       MaximumIterationsReached]) /\
   rec_error (pass_record Rounding.f 0.1%float 0.2%float 0) = 0.1%float /\
   rec_error (pass_record Rounding.f 0.1%float 0.15000000000000002%float 1)
   = 0.05000000000000002%float /\
   (0.1 / 2)%float = 0.05%float /\
   PrimFloat.eqb 0.05000000000000002%float 0.05%float = false) /\
  ((Overflow.f Overflow.a * Overflow.f Overflow.b >=? of_int 0)%py = false /\
   bisection_method Overflow.f Overflow.a Overflow.b Overflow.tolerance 2
   = (Return infinity
        [pass_record Overflow.f Overflow.a Overflow.b 0;
         pass_record Overflow.f Overflow.a infinity 1],
      heading ++
      [Row (pass_record Overflow.f Overflow.a Overflow.b 0);
       Row (pass_record Overflow.f Overflow.a infinity 1);
       MaximumIterationsReached]) /\
   rec_error (pass_record Overflow.f Overflow.a infinity 1) = infinity /\
   PrimFloat.ltb (rec_error (pass_record Overflow.f Overflow.a Overflow.b 0))
                 (rec_error (pass_record Overflow.f Overflow.a infinity 1))
   = true /\
   PrimFloat.leb (rec_error (pass_record Overflow.f Overflow.a infinity 1))
                 (rec_error (pass_record Overflow.f Overflow.a Overflow.b 0))
   = false).
Proof. repeat split; reflexivity. Qed.

(** C6, amended.  In exact arithmetic, rational or real, each record's error
    is exactly half the error of the record before it, and so is not
    larger. *)
Theorem error_halves_exact :
  (forall (f : Q -> Q) a b tolerance n root history out i r r',
     bisection_method f a b tolerance n = (Return root history, out) ->
     nth_error history i = Some r ->
     nth_error history (S i) = Some r' ->
     rec_error r' == rec_error r / 2 /\ rec_error r' <= rec_error r) /\
  (forall (f : R -> R) a b tolerance n root history out i r r',
     bisection_method f a b tolerance n = (Return root history, out) ->
     nth_error history i = Some r ->
     nth_error history (S i) = Some r' ->
     (rec_error r' = rec_error r / 2 /\ rec_error r' <= rec_error r)%R).
Proof.
  split; intros f a b tolerance n root history out i r r' Hret Hi Hi'.
  - exact (history_errors_halve Q_exact _ _ _ _ _ _ _ _ _ _ _ Hret Hi Hi').
  - exact (history_errors_halve R_exact _ _ _ _ _ _ _ _ _ _ _ Hret Hi Hi').
Qed.

Lemma error_halves_exact_witness :
  exists root r0 r1 r2 out,
    bisection_method Main.f Wide.a Wide.b Main.tolerance 3
    = (Return root [r0; r1; r2], out) /\
    rec_error r0 == 3 /\
    rec_error r1 == rec_error r0 / 2 /\ rec_error r1 <= rec_error r0.
Proof.
  eexists. eexists. eexists. eexists. eexists.
  split; [vm_compute; reflexivity|]. split; [reflexivity|].
  eapply (proj1 error_halves_exact Main.f Wide.a Wide.b Main.tolerance 3%Z
            _ _ _ 0%nat).
  - vm_compute. reflexivity.
  - reflexivity.
  - reflexivity.
Defined.

(** C7, at [max_iterations = 0].  The sign check passes, the loop body never
    runs, and [return midpoint] finds the variable unassigned: no pair is
    returned. *)
Lemma zero_iterations_returns_nothing :
  (Main.f Main.a * Main.f Main.b >=? of_int 0)%py = false /\
  bisection_method Main.f Main.a Main.b Main.tolerance 0
  = (Raise UnboundLocalError, heading ++ [MaximumIterationsReached]) /\
  ~ (exists root history out,
       bisection_method Main.f Main.a Main.b Main.tolerance 0
       = (Return root history, out)).
Proof.
  split; [reflexivity|]. split; [reflexivity|].
  intros (root & history & out & H). vm_compute in H. discriminate.
Qed.

(** Past the sign check and with a pass allowed, the function returns, at
    every number type of the model. *)
Lemma returns_a_pair {T : Type} {num : Number T}
    (f : T -> T) a b tolerance max_iterations :
  (f a * f b >=? of_int 0)%py = false ->
  (1 <= max_iterations)%Z ->
  exists root history out earlier last_record,
    bisection_method f a b tolerance max_iterations
    = (Return root history, out) /\
    (1 <= Z.of_nat (length history) <= max_iterations)%Z /\
    history = earlier ++ [last_record] /\
    root = rec_midpoint last_record.
Proof.
  intros Hpre Hn.
  destruct (bisection_method_run f tolerance a b max_iterations Hpre)
    as (h & l & Hrun & Heq).
  pose proof (run_length _ _ _ _ _ _ _ _ Hrun) as Hlen.
  assert (Hne : h <> []).
  { destruct (Z.to_nat max_iterations) eqn:E; [lia|].
    exact (run_nonempty _ _ _ _ _ _ _ _ Hrun). }
  destruct (exists_last Hne) as (earlier & r & ->).
  rewrite final_midpoint_app in Heq.
  exists (rec_midpoint r), (earlier ++ [r]), (heading ++ map (@Row T) (earlier ++ [r]) ++ [l]),
    earlier, r.
  split; [exact Heq|]. split; [|auto].
  rewrite length_app in *. cbn [length] in *. lia.
Qed.

(** C7, amended.  For float bounds and tolerance and a function f on floats,
    none of whose operations raises: when the sign check passes and
    [max_iterations] is at least 1, the function returns a pair
    [(root, history)]; the history has at least 1 and at most
    [max_iterations] records, and [root] is the midpoint of its last
    record. *)
Theorem returns_root_and_history
    (f : float -> float) (a b tolerance : float) max_iterations :
  (f a * f b >=? of_int 0)%py = false ->
  (1 <= max_iterations)%Z ->
  exists root history out earlier last_record,
    bisection_method f a b tolerance max_iterations
    = (Return root history, out) /\
    (1 <= Z.of_nat (length history) <= max_iterations)%Z /\
    history = earlier ++ [last_record] /\
    root = rec_midpoint last_record.
Proof.
  intros Hpre Hn.
  exact (returns_a_pair f a b tolerance max_iterations Hpre Hn).
Qed.

Lemma returns_root_and_history_witness :
  (Rounding.f Rounding.a * Rounding.f Rounding.b >=? of_int 0)%py = false /\
  (1 <= 50)%Z /\
  exists root history out earlier last_record,
    bisection_method Rounding.f Rounding.a Rounding.b Rounding.tolerance 50
    = (Return root history, out) /\
    (1 <= Z.of_nat (length history) <= 50)%Z /\
    history = earlier ++ [last_record] /\
    root = rec_midpoint last_record.
Proof.
  split; [reflexivity|]. split; [lia|].
  apply (returns_root_and_history Rounding.f Rounding.a Rounding.b
           Rounding.tolerance 50); [reflexivity | lia].
Defined.

(** C8, at [max_iterations = 0].  The sign check passes and the loop
    completes its zero passes with neither stopping test firing: the [else]
    clause prints the maximum-iterations line.  Then [return midpoint]
    raises, so here exhaustion does end in an error. *)
Lemma exhaustion_without_a_pass_raises :
  (Main.f Wide.a * Main.f Wide.b >=? of_int 0)%py = false /\
  bisection_method Main.f Wide.a Wide.b Wide.tolerance 0
  = (Raise UnboundLocalError, heading ++ [MaximumIterationsReached]).
Proof. split; reflexivity. Qed.

(** C8, amended.  With [max_iterations >= 1], running out of iterations is
    not an error.  When the sign check passes the function returns normally;
    the maximum-iterations line, the only sign of non-convergence, is printed
    exactly when no record passed a stopping test, and then the history has
    [max_iterations] records and the root is the last midpoint computed.
    With [max_iterations = 1] and a first record that passes neither test,
    exactly that one record is produced. *)
Theorem exhaustion_returns_normally {T : Type} {num : Number T}
    (f : T -> T) a b tolerance max_iterations :
  (f a * f b >=? of_int 0)%py = false ->
  (1 <= max_iterations)%Z ->
  exists root history out earlier last_record,
    bisection_method f a b tolerance max_iterations
    = (Return root history, out) /\
    history = earlier ++ [last_record] /\
    (Forall (fun r => stops tolerance r = false) history <->
     last out Title = MaximumIterationsReached) /\
    (last out Title = MaximumIterationsReached ->
     Z.of_nat (length history) = max_iterations /\
     root = rec_midpoint last_record) /\
    (max_iterations = 1%Z ->
     stops tolerance (pass_record f a b 0) = false ->
     history = [pass_record f a b 0] /\
     last out Title = MaximumIterationsReached).
Proof.
  intros Hpre Hn.
  destruct (bisection_method_run f tolerance a b max_iterations Hpre)
    as (h & l & Hrun & Heq).
  assert (Hne : h <> []).
  { destruct (Z.to_nat max_iterations) eqn:E; [lia|].
    exact (run_nonempty _ _ _ _ _ _ _ _ Hrun). }
  destruct (exists_last Hne) as (earlier & r & Hh).
  rewrite Hh, final_midpoint_app in Heq. rewrite <- Hh in Heq.
  exists (rec_midpoint r), h, (heading ++ map (@Row T) h ++ [l]), earlier, r.
  rewrite last_of_output.
  split; [exact Heq|]. split; [exact Hh|]. split; [|split].
  - split.
    + exact (run_all_continue_exhausted _ _ _ _ _ _ _ _ Hrun).
    + intros Hl. exact (proj1 (run_exhausted_all_continue _ _ _ _ _ _ _ _ Hrun Hl)).
  - intros Hl.
    destruct (run_exhausted_all_continue _ _ _ _ _ _ _ _ Hrun Hl) as [_ Hlen].
    split; [lia | reflexivity].
  - intros -> Hs. change (Z.to_nat 1) with 1%nat in Hrun.
    inversion Hrun as [? ? ? ? He|? ? ? ? He Hc|? ? ? ? ? ? _ _ Hrest
                      |? ? ? ? ? ? _ _ Hrest|]; subst.
    + unfold stops in Hs. rewrite He in Hs. discriminate.
    + unfold stops in Hs. rewrite Hc, orb_true_r in Hs. discriminate.
    + inversion Hrest; subst. auto.
    + inversion Hrest; subst. auto.
Qed.

(** The exhaustion path among the specification's tests: one pass allowed, a
    tolerance of 1e-12 on a bracket of width 3. *)
Example one_pass_exhausts :
  bisection_method Main.f Wide.a Wide.b Wide.tolerance 1
  = (Return (1 # 2) [pass_record Main.f Wide.a Wide.b 0],
     heading ++ [Row (pass_record Main.f Wide.a Wide.b 0);
                 MaximumIterationsReached]).
Proof. reflexivity. Qed.

Lemma exhaustion_returns_normally_witness :
  (Main.f Wide.a * Main.f Wide.b >=? of_int 0)%py = false /\
  (1 <= 1)%Z /\
  exists root history out earlier last_record,
    bisection_method Main.f Wide.a Wide.b Wide.tolerance 1
    = (Return root history, out) /\
    history = earlier ++ [last_record] /\
    (Forall (fun r => stops Wide.tolerance r = false) history <->
     last out Title = MaximumIterationsReached) /\
    (last out Title = MaximumIterationsReached ->
     Z.of_nat (length history) = 1%Z /\
     root = rec_midpoint last_record) /\
    (1%Z = 1%Z ->
     stops Wide.tolerance (pass_record Main.f Wide.a Wide.b 0) = false ->
     history = [pass_record Main.f Wide.a Wide.b 0] /\
     last out Title = MaximumIterationsReached).
Proof.
  split; [reflexivity|]. split; [lia|].
  apply (exhaustion_returns_normally Main.f Wide.a Wide.b Wide.tolerance 1);
    [reflexivity | lia].
Defined.

(** C9. What running the module does: the test of its last statement compares
    the class [NameError] with the string ["__main__"], which is false, so
    [main] is not called and the fixed scenario does not run. *)
Theorem module_body_does_not_call_main :
  Main.py_eq Main.NameError (Main.PyStr "__main__") = false /\
  Main.module_body = None.
Proof. split; reflexivity. Qed.

(** C10. In exact arithmetic, rational or real, on every pass that reaches
    the narrowing step (the record passed neither stopping test) the product
    [f(a) * f_mid] is not zero: [f(a)] is not zero because the bracket has a
    sign change, and [f_mid] is not zero because its absolute value is at
    least 1e-15.  So the branch for a zero or positive product is never
    taken with a zero. *)
Theorem zero_product_unreachable_exact :
  (forall (f : Q -> Q) a b tolerance n root history out r,
     bisection_method f a b tolerance n = (Return root history, out) ->
     In r history ->
     stops tolerance r = false ->
     ~ narrowing_product f r == 0) /\
  (forall (f : R -> R) a b tolerance n root history out r,
     bisection_method f a b tolerance n = (Return root history, out) ->
     In r history ->
     stops tolerance r = false ->
     narrowing_product f r <> 0%R).
Proof.
  split; intros f a b tolerance n root history out r Hret Hin Hs E.
  - apply (narrowing_product_nonzero Q_exact _ _ _ _ _ _ _ _ _ Hret Hin Hs).
    apply Qeq_alt. exact E.
  - apply (narrowing_product_nonzero R_exact _ _ _ _ _ _ _ _ _ Hret Hin Hs).
    apply Rsgn_Eq. exact E.
Qed.

Lemma zero_product_unreachable_exact_witness :
  exists root history out,
    bisection_method Main.f Wide.a Wide.b Main.tolerance 3
    = (Return root history, out) /\
    In (pass_record Main.f Wide.a Wide.b 0) history /\
    stops Main.tolerance (pass_record Main.f Wide.a Wide.b 0) = false /\
    ~ narrowing_product Main.f (pass_record Main.f Wide.a Wide.b 0) == 0.
Proof.
  eexists. eexists. eexists. split; [vm_compute; reflexivity|].
  split; [left; reflexivity|]. split; [reflexivity|].
  eapply (proj1 zero_product_unreachable_exact
            Main.f Wide.a Wide.b Main.tolerance 3%Z).
  - vm_compute. reflexivity.
  - left. reflexivity.
  - reflexivity.
Defined.

(** * Further properties *)

(** ** More facts about the loop, at every number type *)

Section RunFacts.

Context {T : Type} {num : Number T}.
Variable f : T -> T.
Variable tolerance : T.

Local Open Scope py_scope.

Ltac stop_conflict :=
  match goal with
  | He : exact_root ?r = true, Hs : stops _ ?r = false |- _ =>
      unfold stops in Hs; rewrite He in Hs; discriminate
  | Hc : converged _ ?r = true, Hs : stops _ ?r = false |- _ =>
      unfold stops in Hs; rewrite Hc, orb_true_r in Hs; discriminate
  | H1 : ?x = true, H2 : ?x = false |- _ => congruence
  end.

Lemma run_iteration n a b it h l :
  run f tolerance n a b it h l ->
  forall i r, nth_error h i = Some r ->
  rec_iteration r = (it + Z.of_nat i)%Z.
Proof.
  induction 1 as [n a b it He|n a b it He Hc|n a b it h l Hs Hn Hrun IH
                 |n a b it h l Hs Hn Hrun IH|a b it]; intros i r Hi.
  - destruct i as [|[|i]]; cbn in Hi; try discriminate.
    injection Hi as <-. cbn. lia.
  - destruct i as [|[|i]]; cbn in Hi; try discriminate.
    injection Hi as <-. cbn. lia.
  - destruct i as [|i]; cbn in Hi.
    + injection Hi as <-. cbn. lia.
    + rewrite (IH i r Hi). lia.
  - destruct i as [|i]; cbn in Hi.
    + injection Hi as <-. cbn. lia.
    + rewrite (IH i r Hi). lia.
  - destruct i; discriminate.
Qed.

Lemma run_line n a b it h l :
  run f tolerance n a b it h l ->
  l = ExactRootFound \/ l = ConvergenceAchieved \/
  l = MaximumIterationsReached.
Proof. induction 1; auto. Qed.

Lemma run_no_record n a b it l :
  run f tolerance n a b it [] l -> n = O /\ l = MaximumIterationsReached.
Proof. inversion 1; auto. Qed.

(** The same start gives the same records and the same last line. *)
Lemma run_functional n a b it h l :
  run f tolerance n a b it h l ->
  forall h' l', run f tolerance n a b it h' l' -> h = h' /\ l = l'.
Proof.
  induction 1 as [n a b it He|n a b it He Hc|n a b it h l Hs Hn Hrun IH
                 |n a b it h l Hs Hn Hrun IH|a b it]; intros h' l' H';
    inversion H'; subst; try stop_conflict; auto.
  - match goal with H : run _ _ n _ _ _ _ _ |- _ =>
      destruct (IH _ _ H) as [-> ->] end. auto.
  - match goal with H : run _ _ n _ _ _ _ _ |- _ =>
      destruct (IH _ _ H) as [-> ->] end. auto.
Qed.

(** A run that stopped on a test is also a run with more passes allowed. *)
Lemma run_more n a b it h l :
  run f tolerance n a b it h l ->
  l <> MaximumIterationsReached ->
  forall m, (n <= m)%nat -> run f tolerance m a b it h l.
Proof.
  induction 1 as [n a b it He|n a b it He Hc|n a b it h l Hs Hn Hrun IH
                 |n a b it h l Hs Hn Hrun IH|a b it]; intros Hl m Hm.
  - destruct m as [|m]; [lia|]. now apply run_exact.
  - destruct m as [|m]; [lia|]. now apply run_converged.
  - destruct m as [|m]; [lia|]. apply run_move_high; auto. apply IH; [auto|lia].
  - destruct m as [|m]; [lia|]. apply run_move_low; auto. apply IH; [auto|lia].
  - congruence.
Qed.

(** With more passes allowed the records made so far stay. *)
Lemma run_prefix n a b it h l :
  run f tolerance n a b it h l ->
  forall m h' l', (n <= m)%nat -> run f tolerance m a b it h' l' ->
  exists later, h' = h ++ later.
Proof.
  induction 1 as [n a b it He|n a b it He Hc|n a b it h l Hs Hn Hrun IH
                 |n a b it h l Hs Hn Hrun IH|a b it]; intros m h' l' Hm H'.
  - inversion H'; subst; try stop_conflict; try lia; now exists [].
  - inversion H'; subst; try stop_conflict; try lia; now exists [].
  - inversion H'; subst; try stop_conflict; try lia.
    match goal with H : run _ _ _ _ _ _ _ l' |- _ =>
      apply IH in H; [destruct H as (later & ->) | lia] end.
    now exists later.
  - inversion H'; subst; try stop_conflict; try lia.
    match goal with H : run _ _ _ _ _ _ _ l' |- _ =>
      apply IH in H; [destruct H as (later & ->) | lia] end.
    now exists later.
  - now exists h'.
Qed.

Lemma final_midpoint_None (h : list (IterationRecord T)) :
  final_midpoint h None = None -> h = [].
Proof.
  destruct h as [|r h] using rev_ind; [reflexivity|].
  rewrite final_midpoint_app. discriminate.
Qed.

End RunFacts.

Lemma nth_error_final {A : Type} (l : list A) (x : A) :
  nth_error (l ++ [x]) (length (l ++ [x]) - 1) = Some x.
Proof.
  rewrite length_app. cbn [length].
  replace (length l + 1 - 1)%nat with (length l) by lia.
  rewrite nth_error_app2 by lia. now rewrite Nat.sub_diag.
Qed.

(** ** The history and the printed table *)

(** X1. The records of a returned history are numbered 0, 1, 2, ... in
    order, without gaps: the record at position [i] has iteration [i]. *)
Theorem iterations_count_from_zero {T : Type} {num : Number T}
    (f : T -> T) a b tolerance n root history out i r :
  bisection_method f a b tolerance n = (Return root history, out) ->
  nth_error history i = Some r ->
  rec_iteration r = Z.of_nat i.
Proof.
  intros Hret Hi. apply bisection_method_Return in Hret.
  destruct Hret as (_ & l & Hrun & _ & _).
  rewrite (run_iteration _ _ _ _ _ _ _ _ Hrun i r Hi). lia.
Qed.

Lemma iterations_count_from_zero_witness :
  exists root r0 r1 r2 out,
    bisection_method Main.f Wide.a Wide.b Main.tolerance 3
    = (Return root [r0; r1; r2], out) /\
    rec_iteration r2 = Z.of_nat 2.
Proof.
  eexists. eexists. eexists. eexists. eexists.
  split; [vm_compute; reflexivity|].
  eapply (iterations_count_from_zero Main.f Wide.a Wide.b Main.tolerance 3).
  - vm_compute. reflexivity.
  - reflexivity.
Defined.

(** X2. The first record of a returned history shows the bracket the
    function was called with, and every record is consistent with its own
    bracket: its midpoint is [(a + b) / 2], its [f_mid] is f at that
    midpoint, and its error is [abs(b - a)]. *)
Theorem records_are_consistent {T : Type} {num : Number T}
    (f : T -> T) a b tolerance n root history out i r :
  bisection_method f a b tolerance n = (Return root history, out) ->
  nth_error history i = Some r ->
  (i = O -> rec_a r = a /\ rec_b r = b) /\
  rec_midpoint r = ((rec_a r + rec_b r) / of_int 2)%py /\
  rec_f_mid r = f (rec_midpoint r) /\
  rec_error r = abs (rec_b r - rec_a r)%py.
Proof.
  intros Hret Hi. apply bisection_method_Return in Hret.
  destruct Hret as (_ & l & Hrun & _ & _).
  split.
  - intros ->. destruct history as [|r0 history]; [discriminate|].
    injection Hi as ->. apply run_head in Hrun. subst r. auto.
  - pose proof (run_records _ _ _ _ _ _ _ _ Hrun) as Hwf.
    rewrite Forall_forall in Hwf.
    pose proof (Hwf r (nth_error_In _ _ Hi)) as E.
    repeat split; rewrite E; reflexivity.
Qed.

Lemma records_are_consistent_witness :
  bisection_method Main.f Wide.a Wide.b Wide.tolerance 1
  = (Return (1 # 2) [pass_record Main.f Wide.a Wide.b 0],
     heading ++ [Row (pass_record Main.f Wide.a Wide.b 0);
                 MaximumIterationsReached]) /\
  nth_error [pass_record Main.f Wide.a Wide.b 0] 0
  = Some (pass_record Main.f Wide.a Wide.b 0) /\
  rec_a (pass_record Main.f Wide.a Wide.b 0) = Wide.a /\
  rec_f_mid (pass_record Main.f Wide.a Wide.b 0)
  = Main.f (rec_midpoint (pass_record Main.f Wide.a Wide.b 0)).
Proof.
  assert (Hret : bisection_method Main.f Wide.a Wide.b Wide.tolerance 1
                 = (Return (1 # 2) [pass_record Main.f Wide.a Wide.b 0],
                    heading ++ [Row (pass_record Main.f Wide.a Wide.b 0);
                                MaximumIterationsReached]))
    by reflexivity.
  split; [exact Hret|]. split; [reflexivity|].
  destruct (records_are_consistent Main.f Wide.a Wide.b Wide.tolerance 1%Z
              _ _ _ 0%nat _ Hret eq_refl) as (Hfirst & _ & Hf & _).
  split; [exact (proj1 (Hfirst eq_refl)) | exact Hf].
Defined.

(** X3. What has been printed when the function ends, by outcome.  On
    [ValueError] nothing; on a return the four heading lines, one table row
    per record of the history in order, and exactly one closing line.  The
    function ends in [UnboundLocalError] exactly when the sign check passes
    and [max_iterations <= 0], having printed the heading and the
    maximum-iterations line: it does so whenever the check passes with
    [max_iterations <= 0], and it raises [ValueError] whenever the check
    fails. *)
Theorem printed_lines_by_outcome {T : Type} {num : Number T}
    (f : T -> T) a b tolerance n :
  match bisection_method f a b tolerance n with
  | (Raise (ValueError _ _ _ _), out) =>
      out = [] /\ (f a * f b >=? of_int 0)%py = true
  | (Raise UnboundLocalError, out) =>
      out = heading ++ [MaximumIterationsReached] /\
      (f a * f b >=? of_int 0)%py = false /\ (n <= 0)%Z
  | (Return root history, out) =>
      (f a * f b >=? of_int 0)%py = false /\ (0 < n)%Z /\
      exists l, out = heading ++ map (@Row T) history ++ [l] /\
                (l = ExactRootFound \/ l = ConvergenceAchieved \/
                 l = MaximumIterationsReached)
  end /\
  ((f a * f b >=? of_int 0)%py = true ->
   bisection_method f a b tolerance n
   = (Raise (ValueError a (f a) b (f b)), [])) /\
  ((f a * f b >=? of_int 0)%py = false -> (n <= 0)%Z ->
   bisection_method f a b tolerance n
   = (Raise UnboundLocalError, heading ++ [MaximumIterationsReached])).
Proof.
  destruct (f a * f b >=? of_int 0)%py eqn:Hpre.
  - unfold bisection_method. rewrite Hpre.
    split; [split; reflexivity|]. split; [reflexivity | discriminate].
  - destruct (bisection_method_run f tolerance a b n Hpre)
      as (h & l & Hrun & Heq).
    split; [|split; [discriminate|]].
    + rewrite Heq. destruct (final_midpoint h None) eqn:Hm.
      * split; [reflexivity|]. split.
        -- destruct (Z.to_nat n) eqn:E; [|lia].
           inversion Hrun; subst. discriminate.
        -- exists l. split; [reflexivity|].
           exact (run_line _ _ _ _ _ _ _ _ Hrun).
      * apply final_midpoint_None in Hm. subst h.
        apply run_no_record in Hrun. destruct Hrun as [Hn ->].
        split; [reflexivity|]. split; [reflexivity | lia].
    + intros _ Hn. rewrite Heq.
      replace (Z.to_nat n) with O in Hrun by lia.
      inversion Hrun; subst. reflexivity.
Qed.

Lemma printed_lines_by_outcome_witness :
  (Main.f Wide.a * Main.f Wide.b >=? of_int 0)%py = false /\
  (0 <= 0)%Z /\
  bisection_method Main.f Wide.a Wide.b Wide.tolerance 0
  = (Raise UnboundLocalError, heading ++ [MaximumIterationsReached]).
Proof.
  assert (Hpre : (Main.f Wide.a * Main.f Wide.b >=? of_int 0)%py = false)
    by reflexivity.
  split; [exact Hpre|]. split; [lia|].
  apply (proj2 (proj2 (printed_lines_by_outcome
                         Main.f Wide.a Wide.b Wide.tolerance 0)));
    [exact Hpre | lia].
Defined.

(** X4. Allowing more iterations keeps the records already made: the history
    for a larger [max_iterations] starts with the history for the smaller
    one.  If the smaller run ended on a stopping test, the larger one
    returns the same root, the same history and prints the same lines. *)
Theorem more_iterations_extend_the_run {T : Type} {num : Number T}
    (f : T -> T) a b tolerance n m root history out :
  bisection_method f a b tolerance n = (Return root history, out) ->
  (n <= m)%Z ->
  exists root' later out',
    bisection_method f a b tolerance m
    = (Return root' (history ++ later), out') /\
    (last out Title <> MaximumIterationsReached ->
     root' = root /\ later = [] /\ out' = out).
Proof.
  intros Hret Hnm. apply bisection_method_Return in Hret.
  destruct Hret as (Hpre & l & Hrun & Hroot & ->).
  rewrite last_of_output.
  destruct (bisection_method_run f tolerance a b m Hpre)
    as (h' & l' & Hrun' & Heq).
  assert (Hle : (Z.to_nat n <= Z.to_nat m)%nat) by lia.
  destruct (run_prefix _ _ _ _ _ _ _ _ Hrun _ _ _ Hle Hrun') as (later & ->).
  assert (Hm : exists root', final_midpoint (history ++ later) None = Some root').
  { destruct (final_midpoint (history ++ later) None) eqn:E; [eauto|].
    apply final_midpoint_None in E. apply app_eq_nil in E.
    destruct E as [-> _]. discriminate. }
  destruct Hm as (root' & Hm). rewrite Hm in Heq.
  exists root', later, (heading ++ map (@Row T) (history ++ later) ++ [l']).
  split; [exact Heq|]. intros Hl.
  pose proof (run_more _ _ _ _ _ _ _ _ Hrun Hl _ Hle) as Hrun2.
  destruct (run_functional _ _ _ _ _ _ _ _ Hrun2 _ _ Hrun') as [E ->].
  assert (later = []).
  { apply (app_inv_head history). now rewrite app_nil_r. }
  subst later. rewrite app_nil_r in *. split; [congruence | auto].
Qed.

Lemma more_iterations_extend_the_run_witness :
  exists root history out,
    bisection_method Main.f Wide.a Wide.b 1 5 = (Return root history, out) /\
    (5 <= 50)%Z /\
    exists root' later out',
      bisection_method Main.f Wide.a Wide.b 1 50
      = (Return root' (history ++ later), out') /\
      (last out Title <> MaximumIterationsReached ->
       root' = root /\ later = [] /\ out' = out).
Proof.
  eexists. eexists. eexists. split; [vm_compute; reflexivity|].
  split; [lia|].
  eapply (more_iterations_extend_the_run Main.f Wide.a Wide.b 1 5 50).
  - vm_compute. reflexivity.
  - lia.
Defined.

(** ** [print_summary] after [bisection_method] *)

(** X5. [print_summary] raises [IndexError] exactly on an empty history.
    Called, as [main] does, on what [bisection_method] returned for the same
    f, it never raises: it reports the bracket the search was called with as
    initial interval, the number of records (at most [max_iterations]) as
    number of iterations, the error of the last record as final error, and
    for f(root) the [f_mid] of the last record. *)
Theorem summary_of_a_returned_run :
  (forall (T : Type) (root : T) history (f : T -> T),
     fst (print_summary root history f) = IndexError <-> history = []) /\
  (forall (T : Type) (num : Number T) (f : T -> T) a b tolerance n
          root history out,
     bisection_method f a b tolerance n = (Return root history, out) ->
     exists earlier final,
       history = earlier ++ [final] /\
       (length history <= Z.to_nat n)%nat /\
       print_summary root history f
       = (SummaryPrinted,
          [SummaryRule; SummaryTitle; SummaryRule; SummaryEquation;
           InitialInterval a b;
           RootFound (rec_midpoint final);
           ValueAtRoot (rec_f_mid final);
           NumberOfIterations (length history);
           FinalError (rec_error final);
           VerificationTitle;
           Verification (rec_midpoint final) (rec_f_mid final)])).
Proof.
  split.
  - intros T root history f. split.
    + destruct history as [|r0 tl]; [reflexivity|].
      destruct (exists_last (l := r0 :: tl) ltac:(discriminate))
        as (earlier & final & E).
      assert (Hlast : nth_error (r0 :: tl) (length (r0 :: tl) - 1)
                      = Some final)
        by (rewrite E; apply nth_error_final).
      unfold print_summary. change (nth_error (r0 :: tl) 0) with (Some r0).
      cbv beta iota zeta. rewrite Hlast. discriminate.
    + intros ->. reflexivity.
  - intros T num f a b tolerance n root history out Hret.
    apply bisection_method_Return in Hret.
    destruct Hret as (_ & l & Hrun & Hroot & _).
    destruct history as [|r0 tl]; [discriminate|].
    destruct (exists_last (l := r0 :: tl) ltac:(discriminate))
      as (earlier & final & E).
    exists earlier, final. split; [exact E|].
    split; [exact (run_length _ _ _ _ _ _ _ _ Hrun)|].
    pose proof (run_head _ _ _ _ _ _ _ _ _ Hrun) as E0.
    pose proof (run_records _ _ _ _ _ _ _ _ Hrun) as Hwf.
    rewrite Forall_forall in Hwf.
    assert (Hin : In final (r0 :: tl))
      by (rewrite E; apply in_or_app; right; left; reflexivity).
    assert (Hf : rec_f_mid final = f (rec_midpoint final))
      by (rewrite (Hwf final Hin); reflexivity).
    rewrite E, final_midpoint_app in Hroot. injection Hroot as <-.
    assert (Hlast : nth_error (r0 :: tl) (length (r0 :: tl) - 1)
                    = Some final)
      by (rewrite E; apply nth_error_final).
    unfold print_summary. change (nth_error (r0 :: tl) 0) with (Some r0).
    cbv beta iota zeta. rewrite Hlast.
    rewrite <- Hf. rewrite E0. reflexivity.
Qed.

Lemma summary_of_a_returned_run_witness :
  exists root history out,
    bisection_method Main.f Wide.a Wide.b Main.tolerance 3
    = (Return root history, out) /\
    exists earlier final,
      history = earlier ++ [final] /\
      (length history <= Z.to_nat 3)%nat /\
      print_summary root history Main.f
      = (SummaryPrinted,
         [SummaryRule; SummaryTitle; SummaryRule; SummaryEquation;
          InitialInterval Wide.a Wide.b;
          RootFound (rec_midpoint final);
          ValueAtRoot (rec_f_mid final);
          NumberOfIterations (length history);
          FinalError (rec_error final);
          VerificationTitle;
          Verification (rec_midpoint final) (rec_f_mid final)]).
Proof.
  eexists. eexists. eexists. split; [vm_compute; reflexivity|].
  eapply (proj2 summary_of_a_returned_run Q Q_Number
            Main.f Wide.a Wide.b Main.tolerance 3%Z).
  vm_compute. reflexivity.
Defined.

(** ** Exact arithmetic: how fast the bracket shrinks *)

Lemma nth_error_before {A : Type} (l : list A) i x :
  nth_error l (S i) = Some x -> exists y, nth_error l i = Some y.
Proof.
  intros H. destruct (nth_error l i) as [y|] eqn:E; [eauto|].
  apply nth_error_None in E.
  assert (nth_error l (S i) = None) by (apply nth_error_None; lia).
  congruence.
Qed.

Lemma first_record_error {T : Type} {num : Number T}
    (f : T -> T) a b tolerance n root history out r :
  bisection_method f a b tolerance n = (Return root history, out) ->
  nth_error history 0 = Some r ->
  rec_error r = abs (b - a)%py.
Proof.
  intros Hret Hi. apply bisection_method_Return in Hret.
  destruct Hret as (_ & l & Hrun & _ & _).
  destruct history as [|r0 tl]; [discriminate|]. injection Hi as ->.
  apply run_head in Hrun. subst r. reflexivity.
Qed.

Lemma Qpow2_succ (i : nat) : 2 ^ Z.of_nat (S i) == 2 ^ Z.of_nat i * 2.
Proof.
  rewrite Nat2Z.inj_succ. unfold Z.succ.
  rewrite Qpower.Qpower_plus by discriminate. reflexivity.
Qed.

Lemma Qpow2_pos (i : nat) : 0 < 2 ^ Z.of_nat i.
Proof. apply Qpower.Qpower_0_lt. reflexivity. Qed.

Lemma Q_error_closed_form (f : Q -> Q) a b tolerance n root history out :
  bisection_method f a b tolerance n = (Return root history, out) ->
  forall i r, nth_error history i = Some r ->
  rec_error r == Qabs (b - a) / 2 ^ Z.of_nat i.
Proof.
  intros Hret. induction i as [|i IH]; intros r Hi.
  - rewrite (first_record_error _ _ _ _ _ _ _ _ _ Hret Hi).
    change (2 ^ Z.of_nat 0) with 1. cbn [abs sub Q_Number]. field.
  - destruct (nth_error_before _ _ _ Hi) as (r0 & Hi0).
    destruct (history_errors_halve Q_exact _ _ _ _ _ _ _ _ _ _ _ Hret Hi0 Hi)
      as [Hh _].
    cbn in Hh. rewrite Hh, (IH r0 Hi0), Qpow2_succ.
    pose proof (Qpow2_pos i) as Hp. field. intros E. rewrite E in Hp.
    discriminate.
Qed.

Lemma R_error_closed_form (f : R -> R) a b tolerance n root history out :
  bisection_method f a b tolerance n = (Return root history, out) ->
  forall i r, nth_error history i = Some r ->
  (rec_error r = Rabs (b - a) / 2 ^ i)%R.
Proof.
  intros Hret. induction i as [|i IH]; intros r Hi.
  - rewrite (first_record_error _ _ _ _ _ _ _ _ _ Hret Hi).
    cbn [abs sub R_Number pow]. field.
  - destruct (nth_error_before _ _ _ Hi) as (r0 & Hi0).
    destruct (history_errors_halve R_exact _ _ _ _ _ _ _ _ _ _ _ Hret Hi0 Hi)
      as [Hh _].
    cbn in Hh. rewrite Hh, (IH r0 Hi0). cbn [pow].
    pose proof (pow_lt 2 i ltac:(lra)) as Hp. field. lra.
Qed.

(** X6. In exact arithmetic, rational or real, the error of the record at
    position [i] is the width of the bracket the function was called with,
    divided by [2^i]. *)
Theorem error_is_width_over_power_of_two :
  (forall (f : Q -> Q) a b tolerance n root history out i r,
     bisection_method f a b tolerance n = (Return root history, out) ->
     nth_error history i = Some r ->
     rec_error r == Qabs (b - a) / 2 ^ Z.of_nat i) /\
  (forall (f : R -> R) a b tolerance n root history out i r,
     bisection_method f a b tolerance n = (Return root history, out) ->
     nth_error history i = Some r ->
     (rec_error r = Rabs (b - a) / 2 ^ i)%R).
Proof.
  split; intros f a b tolerance n root history out i r Hret Hi.
  - exact (Q_error_closed_form _ _ _ _ _ _ _ _ Hret i r Hi).
  - exact (R_error_closed_form _ _ _ _ _ _ _ _ Hret i r Hi).
Qed.

Lemma error_is_width_over_power_of_two_witness :
  exists root r0 r1 r2 out,
    bisection_method Main.f Wide.a Wide.b Main.tolerance 3
    = (Return root [r0; r1; r2], out) /\
    rec_error r2 == 3 # 4 /\
    rec_error r2 == Qabs (Wide.b - Wide.a) / 2 ^ Z.of_nat 2.
Proof.
  eexists. eexists. eexists. eexists. eexists.
  split; [vm_compute; reflexivity|]. split; [reflexivity|].
  eapply (proj1 error_is_width_over_power_of_two
            Main.f Wide.a Wide.b Main.tolerance 3%Z _ _ _ 2%nat).
  - vm_compute. reflexivity.
  - reflexivity.
Defined.

Lemma stops_within {T : Type} {num : Number T}
    (f : T -> T) a b tolerance n root history out k :
  bisection_method f a b tolerance n = (Return root history, out) ->
  (k < Z.to_nat n)%nat ->
  (forall r, nth_error history k = Some r -> stops tolerance r = true) ->
  (length history <= S k)%nat /\
  last out Title <> MaximumIterationsReached.
Proof.
  intros Hret Hk Hstop. apply bisection_method_Return in Hret.
  destruct Hret as (_ & l & Hrun & _ & ->). rewrite last_of_output.
  assert (Hmax : l = MaximumIterationsReached ->
                 forall r, nth_error history k = Some r -> False).
  { intros Hl r Hr.
    destruct (run_exhausted_all_continue _ _ _ _ _ _ _ _ Hrun Hl) as [Hall _].
    rewrite Forall_forall in Hall.
    specialize (Hall r (nth_error_In _ _ Hr)). specialize (Hstop r Hr).
    congruence. }
  destruct (nth_error history k) as [r|] eqn:Hr.
  - pose proof (run_stop_is_last _ _ _ _ _ _ _ _ Hrun k r Hr (Hstop r eq_refl)).
    split; [lia|]. intros Hl. exact (Hmax Hl r eq_refl).
  - apply nth_error_None in Hr. split; [lia|]. intros Hl.
    destruct (run_exhausted_all_continue _ _ _ _ _ _ _ _ Hrun Hl) as [_ Hlen].
    lia.
Qed.

(** X7. In exact arithmetic, rational or real, the tolerance test is sure to
    end the run once the bracket has been halved often enough: if the width
    of the bracket is below [tolerance * 2^k] and more than [k] iterations
    are allowed, the history has at most [k + 1] records and the run does
    not end on the maximum-iterations line. *)
Theorem converges_within_log2_steps :
  (forall (f : Q -> Q) a b tolerance n root history out k,
     bisection_method f a b tolerance n = (Return root history, out) ->
     Qabs (b - a) < tolerance * 2 ^ Z.of_nat k ->
     (k < Z.to_nat n)%nat ->
     (length history <= S k)%nat /\
     last out Title <> MaximumIterationsReached) /\
  (forall (f : R -> R) a b tolerance n root history out k,
     bisection_method f a b tolerance n = (Return root history, out) ->
     (Rabs (b - a) < tolerance * 2 ^ k)%R ->
     (k < Z.to_nat n)%nat ->
     (length history <= S k)%nat /\
     last out Title <> MaximumIterationsReached).
Proof.
  split; intros f a b tolerance n root history out k Hret Hw Hk;
    apply (stops_within f a b tolerance n root history out k Hret Hk);
    intros r Hr; unfold stops; apply orb_true_iff; right;
    unfold converged.
  - apply Qltb_lt. rewrite (Q_error_closed_form _ _ _ _ _ _ _ _ Hret k r Hr).
    apply Qlt_shift_div_r; [apply Qpow2_pos | exact Hw].
  - apply Rltb_lt. rewrite (R_error_closed_form _ _ _ _ _ _ _ _ Hret k r Hr).
    pose proof (pow_lt 2 k ltac:(lra)) as Hp.
    apply (Rmult_lt_reg_r (2 ^ k)); [exact Hp|].
    unfold Rdiv. rewrite Rmult_assoc, Rinv_l by lra. lra.
Qed.

Lemma converges_within_log2_steps_witness :
  exists root history out,
    bisection_method Main.f Wide.a Wide.b 1 50 = (Return root history, out) /\
    Qabs (Wide.b - Wide.a) < 1 * 2 ^ Z.of_nat 2 /\
    (2 < Z.to_nat 50)%nat /\
    (length history <= 3)%nat /\
    last out Title <> MaximumIterationsReached.
Proof.
  eexists. eexists. eexists. split; [vm_compute; reflexivity|].
  split; [reflexivity|]. split; [vm_compute; lia|].
  eapply (proj1 converges_within_log2_steps Main.f Wide.a Wide.b 1 50%Z
            _ _ _ 2%nat).
  - vm_compute. reflexivity.
  - reflexivity.
  - vm_compute. lia.
Defined.

(** ** Exact arithmetic: where the brackets and the root lie *)

Lemma Q_run_nested (f : Q -> Q) tolerance n a b it h l :
  run f tolerance n a b it h l ->
  a <= b ->
  Forall (fun r => a <= rec_a r /\ rec_a r <= rec_midpoint r /\
                   rec_midpoint r <= rec_b r /\ rec_b r <= b) h.
Proof.
  assert (Hmid : forall x y, x <= y ->
            x <= (x + y) / 2 /\ (x + y) / 2 <= y).
  { intros x y Hxy. rewrite Qhalf. split; lra. }
  assert (Hrec : forall x y k, x <= y ->
            x <= rec_a (pass_record f x y k) /\
            rec_a (pass_record f x y k) <= rec_midpoint (pass_record f x y k) /\
            rec_midpoint (pass_record f x y k) <= rec_b (pass_record f x y k) /\
            rec_b (pass_record f x y k) <= y).
  { intros x y k Hxy. destruct (Hmid x y Hxy) as [H1 H2].
    repeat split; [apply Qle_refl | exact H1 | exact H2 | apply Qle_refl]. }
  induction 1 as [n a b it He|n a b it He Hc|n a b it h l Hs Hn Hrun IH
                 |n a b it h l Hs Hn Hrun IH|a b it]; intros Hab;
    destruct (Hmid a b Hab) as [H1 H2].
  - constructor; [exact (Hrec a b it Hab) | constructor].
  - constructor; [exact (Hrec a b it Hab) | constructor].
  - constructor; [exact (Hrec a b it Hab)|].
    eapply Forall_impl; [|exact (IH H1)].
    intros r (? & ? & ? & Hr). repeat split; auto.
    exact (Qle_trans _ _ _ Hr H2).
  - constructor; [exact (Hrec a b it Hab)|].
    eapply Forall_impl; [|exact (IH H2)].
    intros r (Hr & ? & ? & ?). repeat split; auto.
    exact (Qle_trans _ _ _ H1 Hr).
  - constructor.
Qed.

Lemma R_run_nested (f : R -> R) tolerance n a b it h l :
  run f tolerance n a b it h l ->
  (a <= b)%R ->
  Forall (fun r => (a <= rec_a r /\ rec_a r <= rec_midpoint r /\
                    rec_midpoint r <= rec_b r /\ rec_b r <= b)%R) h.
Proof.
  assert (Hmid : forall x y, (x <= y ->
            x <= (x + y) / 2 /\ (x + y) / 2 <= y)%R).
  { intros x y Hxy. split; lra. }
  assert (Hrec : forall x y k, (x <= y)%R ->
            (x <= rec_a (pass_record f x y k) /\
             rec_a (pass_record f x y k) <= rec_midpoint (pass_record f x y k) /\
             rec_midpoint (pass_record f x y k) <= rec_b (pass_record f x y k) /\
             rec_b (pass_record f x y k) <= y)%R).
  { intros x y k Hxy. destruct (Hmid x y Hxy) as [H1 H2].
    repeat split; [apply Rle_refl | exact H1 | exact H2 | apply Rle_refl]. }
  induction 1 as [n a b it He|n a b it He Hc|n a b it h l Hs Hn Hrun IH
                 |n a b it h l Hs Hn Hrun IH|a b it]; intros Hab;
    destruct (Hmid a b Hab) as [H1 H2].
  - constructor; [exact (Hrec a b it Hab) | constructor].
  - constructor; [exact (Hrec a b it Hab) | constructor].
  - constructor; [exact (Hrec a b it Hab)|].
    eapply Forall_impl; [|exact (IH H1)].
    intros r (? & ? & ? & Hr). repeat split; auto.
    exact (Rle_trans _ _ _ Hr H2).
  - constructor; [exact (Hrec a b it Hab)|].
    eapply Forall_impl; [|exact (IH H2)].
    intros r (Hr & ? & ? & ?). repeat split; auto.
    exact (Rle_trans _ _ _ H1 Hr).
  - constructor.
Qed.

Lemma returned_root_is_last_midpoint {T : Type} {num : Number T}
    (f : T -> T) a b tolerance n root history out :
  bisection_method f a b tolerance n = (Return root history, out) ->
  exists earlier final,
    history = earlier ++ [final] /\ root = rec_midpoint final.
Proof.
  intros Hret. apply bisection_method_Return in Hret.
  destruct Hret as (_ & l & _ & Hroot & _).
  destruct history as [|r0 tl]; [discriminate|].
  destruct (exists_last (l := r0 :: tl) ltac:(discriminate))
    as (earlier & final & E).
  rewrite E, final_midpoint_app in Hroot. injection Hroot as <-.
  exists earlier, final. auto.
Qed.

(** X8. In exact arithmetic, rational or real, when the function is called
    with [a <= b] the brackets never leave [[a, b]]: every record has
    [a <= rec_a <= rec_midpoint <= rec_b <= b], and the returned root lies
    in [[a, b]]. *)
Theorem brackets_stay_inside :
  (forall (f : Q -> Q) a b tolerance n root history out,
     bisection_method f a b tolerance n = (Return root history, out) ->
     a <= b ->
     Forall (fun r => a <= rec_a r /\ rec_a r <= rec_midpoint r /\
                      rec_midpoint r <= rec_b r /\ rec_b r <= b) history /\
     a <= root /\ root <= b) /\
  (forall (f : R -> R) a b tolerance n root history out,
     bisection_method f a b tolerance n = (Return root history, out) ->
     (a <= b)%R ->
     Forall (fun r => (a <= rec_a r /\ rec_a r <= rec_midpoint r /\
                       rec_midpoint r <= rec_b r /\ rec_b r <= b)%R) history /\
     (a <= root /\ root <= b)%R).
Proof.
  split; intros f a b tolerance n root history out Hret Hab;
    destruct (returned_root_is_last_midpoint _ _ _ _ _ _ _ _ Hret)
      as (earlier & final & E & ->);
    apply bisection_method_Return in Hret;
    destruct Hret as (_ & l & Hrun & _ & _).
  - pose proof (Q_run_nested _ _ _ _ _ _ _ _ Hrun Hab) as Hall.
    split; [exact Hall|]. rewrite Forall_forall in Hall.
    destruct (Hall final) as (Ha & Hm1 & Hm2 & Hb);
      [rewrite E; apply in_or_app; right; left; reflexivity|].
    split; [exact (Qle_trans _ _ _ Ha Hm1) | exact (Qle_trans _ _ _ Hm2 Hb)].
  - pose proof (R_run_nested _ _ _ _ _ _ _ _ Hrun Hab) as Hall.
    split; [exact Hall|]. rewrite Forall_forall in Hall.
    destruct (Hall final) as (? & ? & ? & ?);
      [rewrite E; apply in_or_app; right; left; reflexivity|].
    split; lra.
Qed.

Lemma brackets_stay_inside_witness :
  exists root history out,
    bisection_method Main.f Wide.a Wide.b Main.tolerance 3
    = (Return root history, out) /\
    Wide.a <= Wide.b /\
    Forall (fun r => Wide.a <= rec_a r /\ rec_a r <= rec_midpoint r /\
                     rec_midpoint r <= rec_b r /\ rec_b r <= Wide.b)
           history /\
    Wide.a <= root /\ root <= Wide.b.
Proof.
  eexists. eexists. eexists. split; [vm_compute; reflexivity|].
  split; [vm_compute; discriminate|].
  eapply (proj1 brackets_stay_inside Main.f Wide.a Wide.b Main.tolerance 3%Z).
  - vm_compute. reflexivity.
  - vm_compute. discriminate.
Defined.

(** X9. Over the reals, for a continuous f and [a <= b], the search is
    correct: the last bracket of a returned history contains a zero [z] of
    f, and the returned root is within half the last error of it.  When the
    run ended on the tolerance test, the root is within half the tolerance
    of [z]. *)
Theorem root_is_near_a_zero (f : R -> R) a b tolerance n root history out :
  continuity f ->
  (a <= b)%R ->
  bisection_method f a b tolerance n = (Return root history, out) ->
  exists z earlier final,
    history = earlier ++ [final] /\
    f z = 0%R /\
    (a <= z <= b)%R /\
    (rec_a final <= z <= rec_b final)%R /\
    (Rabs (root - z) <= rec_error final / 2)%R /\
    (last out Title = ConvergenceAchieved ->
     (Rabs (root - z) < tolerance / 2)%R).
Proof.
  intros Hcont Hab Hret.
  destruct (returned_root_is_last_midpoint _ _ _ _ _ _ _ _ Hret)
    as (earlier & final & E & ->).
  pose proof (history_opposite_signs R_exact _ _ _ _ _ _ _ _ Hret) as Hsign.
  apply bisection_method_Return in Hret.
  destruct Hret as (_ & l & Hrun & _ & ->). rewrite last_of_output.
  assert (Hin : In final history)
    by (rewrite E; apply in_or_app; right; left; reflexivity).
  pose proof (R_run_nested _ _ _ _ _ _ _ _ Hrun Hab) as Hnest.
  rewrite Forall_forall in Hnest, Hsign.
  destruct (Hnest final Hin) as (Ha & Hm1 & Hm2 & Hb).
  specialize (Hsign final Hin). unfold opposite_signs in Hsign.
  apply Rltb_lt in Hsign.
  pose proof (run_records _ _ _ _ _ _ _ _ Hrun) as Hwf.
  rewrite Forall_forall in Hwf. pose proof (Hwf final Hin) as Ef.
  assert (Em : rec_midpoint final = ((rec_a final + rec_b final) / 2)%R)
    by (rewrite Ef; reflexivity).
  assert (Ee : rec_error final = Rabs (rec_b final - rec_a final))
    by (rewrite Ef; reflexivity).
  assert (Hle : (rec_a final <= rec_b final)%R) by lra.
  rewrite Rabs_pos_eq in Ee by lra.
  destruct (IVT_cor f (rec_a final) (rec_b final) Hcont Hle)
    as (z & Hz & Hfz); [cbn in Hsign; lra|].
  assert (Hnear : (Rabs (rec_midpoint final - z) <= rec_error final / 2)%R).
  { apply Rabs_le. rewrite Em, Ee. lra. }
  exists z, earlier, final.
  split; [exact E|]. split; [exact Hfz|]. split; [lra|].
  split; [exact Hz|]. split; [exact Hnear|].
  intros Hl. subst history.
  destruct (run_last _ _ _ _ _ _ _ _ Hrun earlier final eq_refl)
    as [(_ & ?)|[(_ & Hc & _)|(_ & ? & _)]]; try congruence.
  unfold converged in Hc. apply Rltb_lt in Hc. lra.
Qed.

(** The run of f(x) = x on [-1, 1] over the reals: the first midpoint is a
    zero of f. *)
Lemma real_identity_run tolerance :
  bisection_method (fun x : R => x) (-1)%R 1%R tolerance 1
  = (Return ((-1 + 1) / 2)%R
       [pass_record (fun x : R => x) (-1)%R 1%R 0],
     heading ++ [Row (pass_record (fun x : R => x) (-1)%R 1%R 0);
                 ExactRootFound]).
Proof.
  assert (H1 : Rgeb (-1 * 1) 0 = false).
  { unfold Rgeb. destruct (Rle_dec 0 (-1 * 1)); [lra | reflexivity]. }
  assert (H2 : Rltb (Rabs ((-1 + 1) / 2)) 1e-15 = true).
  { apply Rltb_lt. replace ((-1 + 1) / 2)%R with 0%R by lra.
    rewrite Rabs_R0. lra. }
  unfold bisection_method.
  replace ((-1)%R * 1%R >=? of_int 0)%py with false by (symmetry; exact H1).
  change (Z.to_nat 1) with 1%nat. unfold for_loop. cbv beta zeta.
  match goal with
  | |- context [if ?c then _ else _] =>
      replace c with true by (symmetry; exact H2)
  end.
  reflexivity.
Qed.

Lemma root_is_near_a_zero_witness :
  continuity (fun x : R => x) /\
  (-1 <= 1)%R /\
  exists z earlier final,
    [pass_record (fun x : R => x) (-1)%R 1%R 0] = earlier ++ [final] /\
    z = 0%R /\
    (-1 <= z <= 1)%R /\
    (rec_a final <= z <= rec_b final)%R /\
    (Rabs ((-1 + 1) / 2 - z) <= rec_error final / 2)%R.
Proof.
  assert (Hc : continuity (fun x : R => x))
    by exact (derivable_continuous _ derivable_id).
  split; [exact Hc|]. split; [lra|].
  destruct (root_is_near_a_zero (fun x : R => x) (-1)%R 1%R 1%R 1%Z
              _ _ _ Hc ltac:(lra) (real_identity_run 1%R))
    as (z & earlier & final & E & Hz & Hab & Hin & Hnear & _).
  exists z, earlier, final. auto.
Defined.

(** ** Edge cases of the tests *)

Lemma never_converged_last_line {T : Type} {num : Number T}
    (f : T -> T) a b tolerance n root history out :
  bisection_method f a b tolerance n = (Return root history, out) ->
  Forall (fun r => converged tolerance r = false) history ->
  last out Title <> ConvergenceAchieved.
Proof.
  intros Hret Hall. apply bisection_method_Return in Hret.
  destruct Hret as (_ & l & Hrun & Hroot & ->). rewrite last_of_output.
  destruct history as [|r0 tl]; [discriminate|].
  destruct (exists_last (l := r0 :: tl) ltac:(discriminate))
    as (earlier & final & E).
  rewrite Forall_forall in Hall.
  assert (Hin : In final (r0 :: tl))
    by (rewrite E; apply in_or_app; right; left; reflexivity).
  specialize (Hall final Hin).
  destruct (run_last _ _ _ _ _ _ _ _ Hrun earlier final E)
    as [(_ & ->)|[(_ & Hc & _)|(_ & -> & _)]]; congruence.
Qed.

(** X10. In exact arithmetic, rational or real, a tolerance that is zero or
    negative switches the tolerance test off: no record passes it, and the
    run never ends on the convergence line, only at an exact root or by
    running out of iterations. *)
Theorem nonpositive_tolerance_never_converges :
  (forall (f : Q -> Q) a b tolerance n root history out,
     bisection_method f a b tolerance n = (Return root history, out) ->
     tolerance <= 0 ->
     Forall (fun r => converged tolerance r = false) history /\
     last out Title <> ConvergenceAchieved) /\
  (forall (f : R -> R) a b tolerance n root history out,
     bisection_method f a b tolerance n = (Return root history, out) ->
     (tolerance <= 0)%R ->
     Forall (fun r => converged tolerance r = false) history /\
     last out Title <> ConvergenceAchieved).
Proof.
  split; intros f a b tolerance n root history out Hret Htol.
  - assert (Hall : Forall (fun r => converged tolerance r = false) history).
    { pose proof Hret as Hret'. apply bisection_method_Return in Hret'.
      destruct Hret' as (_ & l & Hrun & _ & _).
      eapply Forall_impl; [|exact (run_records _ _ _ _ _ _ _ _ Hrun)].
      intros r E.
      assert (Ee : rec_error r = Qabs (rec_b r - rec_a r))
        by (rewrite E; reflexivity).
      unfold converged. rewrite Ee.
      change (Qltb (Qabs (rec_b r - rec_a r)) tolerance = false).
      destruct (Qltb (Qabs (rec_b r - rec_a r)) tolerance) eqn:C;
        [|reflexivity].
      apply Qltb_lt in C. pose proof (Qabs_nonneg (rec_b r - rec_a r)).
      lra. }
    split; [exact Hall|].
    exact (never_converged_last_line _ _ _ _ _ _ _ _ Hret Hall).
  - assert (Hall : Forall (fun r => converged tolerance r = false) history).
    { pose proof Hret as Hret'. apply bisection_method_Return in Hret'.
      destruct Hret' as (_ & l & Hrun & _ & _).
      eapply Forall_impl; [|exact (run_records _ _ _ _ _ _ _ _ Hrun)].
      intros r E.
      assert (Ee : rec_error r = Rabs (rec_b r - rec_a r))
        by (rewrite E; reflexivity).
      unfold converged. rewrite Ee.
      change (Rltb (Rabs (rec_b r - rec_a r)) tolerance = false).
      destruct (Rltb (Rabs (rec_b r - rec_a r)) tolerance) eqn:C;
        [|reflexivity].
      apply Rltb_lt in C. pose proof (Rabs_pos (rec_b r - rec_a r)).
      lra. }
    split; [exact Hall|].
    exact (never_converged_last_line _ _ _ _ _ _ _ _ Hret Hall).
Qed.

Lemma nonpositive_tolerance_never_converges_witness :
  exists root history out,
    bisection_method Main.f Wide.a Wide.b 0 3 = (Return root history, out) /\
    0 <= 0 /\
    Forall (fun r => converged 0 r = false) history /\
    last out Title <> ConvergenceAchieved.
Proof.
  eexists. eexists. eexists. split; [vm_compute; reflexivity|].
  split; [apply Qle_refl|].
  eapply (proj1 nonpositive_tolerance_never_converges
            Main.f Wide.a Wide.b 0 3%Z).
  - vm_compute. reflexivity.
  - apply Qle_refl.
Defined.

(** ** binary64: NaN *)

Lemma SFeqb_irreflexive_is_nan s : SFeqb s s = false -> s = S754_nan.
Proof.
  destruct s as [sg|sg| |sg m e]; cbn; try reflexivity;
    try (destruct sg; discriminate).
  unfold SFeqb, SFcompare. rewrite Z.compare_refl, Pos.compare_refl.
  destruct sg; cbn; discriminate.
Qed.

Lemma nan_is_not_ge_zero (x : float) :
  is_nan x = true -> PrimFloat.leb 0 x = false.
Proof.
  unfold is_nan. intros H. apply negb_true_iff in H.
  rewrite eqb_spec in H. apply SFeqb_irreflexive_is_nan in H.
  rewrite leb_spec, H. reflexivity.
Qed.

(** X11. In binary64 the sign check lets NaN through: when [f(a) * f(b)] is
    NaN the test [>= 0] is false, so [ValueError] is not raised, and with
    [max_iterations >= 1] the function returns a root and a non-empty
    history as if the bracket were valid. *)
Theorem nan_passes_the_sign_check (f : float -> float) a b tolerance n :
  is_nan (f a * f b)%float = true ->
  (1 <= n)%Z ->
  (f a * f b >=? of_int 0)%py = false /\
  exists root history out,
    bisection_method f a b tolerance n = (Return root history, out) /\
    history <> [].
Proof.
  intros Hnan Hn.
  assert (Hpre : (f a * f b >=? of_int 0)%py = false)
    by exact (nan_is_not_ge_zero _ Hnan).
  split; [exact Hpre|].
  destruct (bisection_method_run f tolerance a b n Hpre)
    as (h & l & Hrun & Heq).
  assert (Hne : h <> []).
  { destruct (Z.to_nat n) eqn:E; [lia|].
    exact (run_nonempty _ _ _ _ _ _ _ _ Hrun). }
  destruct (exists_last Hne) as (earlier & r & E).
  rewrite E, final_midpoint_app in Heq. rewrite <- E in Heq.
  eauto.
Qed.

Lemma nan_passes_the_sign_check_witness :
  is_nan (NotANumber.f NotANumber.a * NotANumber.f NotANumber.b)%float = true /\
  (1 <= 1)%Z /\
  bisection_method NotANumber.f NotANumber.a NotANumber.b
                   NotANumber.tolerance 1
  = (Return 1.5%float [pass_record NotANumber.f 1%float 2%float 0],
     heading ++ [Row (pass_record NotANumber.f 1%float 2%float 0);
                 MaximumIterationsReached]) /\
  (NotANumber.f NotANumber.a * NotANumber.f NotANumber.b >=? of_int 0)%py
  = false.
Proof.
  split; [reflexivity|]. split; [lia|]. split; [reflexivity|].
  exact (proj1 (nan_passes_the_sign_check NotANumber.f NotANumber.a
                  NotANumber.b NotANumber.tolerance 1%Z eq_refl
                  ltac:(lia))).
Defined.

(** ** A looser tolerance stops earlier *)

Lemma run_looser_tolerance {T : Type} {num : Number T}
    (f : T -> T) (tight loose : T) :
  (forall r, converged tight r = true -> converged loose r = true) ->
  forall n a b it h l,
  run f loose n a b it h l ->
  forall h' l', run f tight n a b it h' l' ->
  exists later, h' = h ++ later.
Proof.
  intros Hmono.
  assert (Hconflict : forall r,
            converged tight r = true -> stops loose r = false -> False).
  { intros r Hc Hs. apply Hmono in Hc. unfold stops in Hs.
    rewrite Hc, orb_true_r in Hs. discriminate. }
  assert (Hexact : forall r,
            exact_root r = true -> stops loose r = false -> False).
  { intros r He Hs. unfold stops in Hs. rewrite He in Hs. discriminate. }
  induction 1 as [n a b it He|n a b it He Hc|n a b it h l Hs Hn Hrun IH
                 |n a b it h l Hs Hn Hrun IH|a b it]; intros h' l' H'.
  - inversion H'; subst; eexists; cbn; reflexivity.
  - inversion H'; subst; eexists; cbn; reflexivity.
  - inversion H' as [? ? ? ? He'|? ? ? ? He' Hc'|? ? ? ? ? ? _ Hn' Hrest
                    |? ? ? ? ? ? _ Hn' Hrest|]; subst.
    + destruct (Hexact _ He' Hs).
    + destruct (Hconflict _ Hc' Hs).
    + destruct (IH _ _ Hrest) as (later & ->). now exists later.
    + congruence.
  - inversion H' as [? ? ? ? He'|? ? ? ? He' Hc'|? ? ? ? ? ? _ Hn' Hrest
                    |? ? ? ? ? ? _ Hn' Hrest|]; subst.
    + destruct (Hexact _ He' Hs).
    + destruct (Hconflict _ Hc' Hs).
    + congruence.
    + destruct (IH _ _ Hrest) as (later & ->). now exists later.
  - now exists h'.
Qed.

(** X12. In exact arithmetic, rational or real, tightening the tolerance
    only adds records: for the same function, bracket and [max_iterations],
    the history returned with the looser tolerance is the beginning of the
    history returned with the tighter one. *)
Theorem tighter_tolerance_extends_the_history :
  (forall (f : Q -> Q) a b tight loose n root history out root' history' out',
     tight <= loose ->
     bisection_method f a b loose n = (Return root history, out) ->
     bisection_method f a b tight n = (Return root' history', out') ->
     exists later, history' = history ++ later) /\
  (forall (f : R -> R) a b tight loose n root history out root' history' out',
     (tight <= loose)%R ->
     bisection_method f a b loose n = (Return root history, out) ->
     bisection_method f a b tight n = (Return root' history', out') ->
     exists later, history' = history ++ later).
Proof.
  split; intros f a b tight loose n root history out root' history' out'
                Hle Hret Hret';
    apply bisection_method_Return in Hret;
    destruct Hret as (_ & l & Hrun & _ & _);
    apply bisection_method_Return in Hret';
    destruct Hret' as (_ & l' & Hrun' & _ & _);
    refine (run_looser_tolerance f tight loose _ _ _ _ _ _ _ Hrun _ _ Hrun');
    intros r; unfold converged.
  - change (Qltb (rec_error r) tight = true -> Qltb (rec_error r) loose = true).
    rewrite !Qltb_lt. intros H. exact (Qlt_le_trans _ _ _ H Hle).
  - change (Rltb (rec_error r) tight = true -> Rltb (rec_error r) loose = true).
    rewrite !Rltb_lt. intros H. exact (Rlt_le_trans _ _ _ H Hle).
Qed.

Lemma tighter_tolerance_extends_the_history_witness :
  exists root history out root' history' out',
    (1 # 2) <= 1 /\
    bisection_method Main.f Wide.a Wide.b 1 50 = (Return root history, out) /\
    bisection_method Main.f Wide.a Wide.b (1 # 2) 50
    = (Return root' history', out') /\
    length history = 3%nat /\
    length history' = 4%nat /\
    exists later, history' = history ++ later.
Proof.
  eexists. eexists. eexists. eexists. eexists. eexists.
  split; [vm_compute; discriminate|].
  split; [vm_compute; reflexivity|].
  split; [vm_compute; reflexivity|].
  split; [reflexivity|]. split; [reflexivity|].
  eapply (proj1 tighter_tolerance_extends_the_history
            Main.f Wide.a Wide.b (1 # 2) 1 50%Z).
  - vm_compute. discriminate.
  - vm_compute. reflexivity.
  - vm_compute. reflexivity.
Defined.

(** ** The program's own function *)

Lemma f_factored (x : Q) : Main.f x == x * (x * x + 4).
Proof. unfold Main.f. simpl Qpower. ring. Qed.

Lemma f_negative (x : Q) : Main.f x < 0 -> x < 0.
Proof. rewrite f_factored. intros H. nra. Qed.

Lemma f_positive (x : Q) : 0 < Main.f x -> 0 < x.
Proof. rewrite f_factored. intros H. nra. Qed.

Lemma f_increasing (x y : Q) : x <= y -> Main.f x <= Main.f y.
Proof.
  rewrite !f_factored. intros H.
  assert (E : y * (y * y + 4) - x * (x * x + 4)
              == (y - x) * (x * x + x * y + y * y + 4)) by ring.
  assert (0 <= (y - x) * (x * x + x * y + y * y + 4)); [|lra].
  apply Qmult_le_0_compat; [lra | nra].
Qed.

(** X13. For the program's f(x) = x^3 + 4x, whose zero is 0, and any call
    with [a <= b] that returns: the last bracket has 0 strictly inside, the
    returned root is within half the last error of 0, and when the run ended
    on the tolerance test the root is within half the tolerance of 0. *)
Theorem cubic_root_is_near_zero a b tolerance n root history out :
  bisection_method Main.f a b tolerance n = (Return root history, out) ->
  a <= b ->
  exists earlier final,
    history = earlier ++ [final] /\
    rec_a final < 0 /\ 0 < rec_b final /\
    Qabs root <= rec_error final * (1 # 2) /\
    (last out Title = ConvergenceAchieved ->
     Qabs root < tolerance * (1 # 2)).
Proof.
  intros Hret Hab.
  destruct (returned_root_is_last_midpoint _ _ _ _ _ _ _ _ Hret)
    as (earlier & final & E & ->).
  pose proof (history_opposite_signs Q_exact _ _ _ _ _ _ _ _ Hret) as Hsign.
  apply bisection_method_Return in Hret.
  destruct Hret as (_ & l & Hrun & _ & ->). rewrite last_of_output.
  assert (Hin : In final history)
    by (rewrite E; apply in_or_app; right; left; reflexivity).
  pose proof (Q_run_nested _ _ _ _ _ _ _ _ Hrun Hab) as Hnest.
  rewrite Forall_forall in Hnest, Hsign.
  destruct (Hnest final Hin) as (_ & Hm1 & Hm2 & _).
  specialize (Hsign final Hin). unfold opposite_signs in Hsign.
  apply Qltb_lt in Hsign.
  change (Main.f (rec_a final) * Main.f (rec_b final) < 0) in Hsign.
  pose proof (run_records _ _ _ _ _ _ _ _ Hrun) as Hwf.
  rewrite Forall_forall in Hwf. pose proof (Hwf final Hin) as Ef.
  assert (Em : rec_midpoint final = (rec_a final + rec_b final) / 2)
    by (rewrite Ef; reflexivity).
  assert (Ee : rec_error final = Qabs (rec_b final - rec_a final))
    by (rewrite Ef; reflexivity).
  assert (Hle : rec_a final <= rec_b final)
    by exact (Qle_trans _ _ _ Hm1 Hm2).
  pose proof (f_increasing _ _ Hle) as Hinc.
  assert (Hneg : Main.f (rec_a final) < 0) by nra.
  assert (Hpos : 0 < Main.f (rec_b final)) by nra.
  apply f_negative in Hneg. apply f_positive in Hpos.
  assert (Ew : rec_error final == rec_b final - rec_a final).
  { rewrite Ee. apply Qabs_pos. lra. }
  assert (Emid : rec_midpoint final
                 == (rec_a final + rec_b final) * (1 # 2)).
  { rewrite Em. apply Qhalf. }
  assert (Hnear : Qabs (rec_midpoint final) <= rec_error final * (1 # 2)).
  { apply Qabs_Qle_condition. rewrite Ew, Emid. split; lra. }
  exists earlier, final.
  split; [exact E|]. split; [exact Hneg|]. split; [exact Hpos|].
  split; [exact Hnear|].
  intros Hl. subst history.
  destruct (run_last _ _ _ _ _ _ _ _ Hrun earlier final eq_refl)
    as [(_ & ?)|[(_ & Hc & _)|(_ & ? & _)]]; try congruence.
  unfold converged in Hc.
  change (Qltb (rec_error final) tolerance = true) in Hc.
  apply Qltb_lt in Hc. lra.
Qed.

Lemma cubic_root_is_near_zero_witness :
  exists root history out,
    bisection_method Main.f Wide.a Wide.b 1 50 = (Return root history, out) /\
    Wide.a <= Wide.b /\
    exists earlier final,
      history = earlier ++ [final] /\
      rec_a final < 0 /\ 0 < rec_b final /\
      Qabs root <= rec_error final * (1 # 2) /\
      (last out Title = ConvergenceAchieved -> Qabs root < 1 * (1 # 2)).
Proof.
  eexists. eexists. eexists. split; [vm_compute; reflexivity|].
  split; [vm_compute; discriminate|].
  eapply (cubic_root_is_near_zero Wide.a Wide.b 1 50%Z).
  - vm_compute. reflexivity.
  - vm_compute. discriminate.
Defined.

(** X14. The program's f(x) = x^3 + 4x is strictly increasing and its only
    zero is 0, as its docstring says. *)
Theorem cubic_has_one_zero :
  (forall x y : Q, x < y -> Main.f x < Main.f y) /\
  (forall x : Q, Main.f x == 0 <-> x == 0).
Proof.
  split.
  - intros x y H. rewrite !f_factored.
    assert (E : y * (y * y + 4) - x * (x * x + 4)
                == (y - x) * (x * x + x * y + y * y + 4)) by ring.
    assert (0 < (y - x) * (x * x + x * y + y * y + 4)); [|lra].
    apply Qmult_lt_0_compat; [lra | nra].
  - intros x. rewrite f_factored. split.
    + intros H. apply Qmult_integral in H. destruct H as [H|H]; [exact H|].
      nra.
    + intros ->. reflexivity.
Qed.
